(** * Hybrid retrieval engine: document store, keyword filter, weighted ranker

    A shallow embedding of [src/database/test_case_store.py] (class
    [TestCaseStore]) and [src/retrieval/hybrid/hybrid_retriever.py] (class
    [HybridRetriever]), with the properties of the retrieval specification
    stated and proved over it.

    Modelling conventions.
    - Text is [string]; the model is faithful for ASCII text: [str.lower],
      [str.upper], [str.split], the regular expression classes and SQLite's
      [LOWER] and [LIKE] are given their behaviour on code points below 128,
      and every other character is left unchanged by the case mappings.
    - Python floats are modelled as exact rationals [Q]; the literals of the
      source ([0.5], [0.8], ...) are the rationals they denote.  Rounding,
      infinities and NaN are outside the model.
    - The SQLite table [test_cases] is a list of rows in insertion (rowid)
      order whose [id] column is a key.
    - Exceptions are values of [exn]; a call that can raise returns a
      [result]; the calls made to the embedding provider are recorded in a
      trace. *)

From Stdlib Require Import String Ascii List Bool Arith NArith ZArith QArith Qabs.
From Stdlib Require Import Lia Lqa Permutation Sorted.
Import ListNotations.
Local Open Scope string_scope.
Local Open Scope list_scope.

Set Implicit Arguments.

(** ** Python and SQLite text primitives *)

Module Text.

Definition code (c : ascii) : N := N_of_ascii c.

Definition is_upper (c : ascii) : bool := (65 <=? code c)%N && (code c <=? 90)%N.
Definition is_lower (c : ascii) : bool := (97 <=? code c)%N && (code c <=? 122)%N.
Definition is_digit (c : ascii) : bool := (48 <=? code c)%N && (code c <=? 57)%N.

Definition lower_char (c : ascii) : ascii :=
  if is_upper c then ascii_of_N (code c + 32) else c.
Definition upper_char (c : ascii) : ascii :=
  if is_lower c then ascii_of_N (code c - 32) else c.

Fixpoint map_string (f : ascii -> ascii) (s : string) : string :=
  match s with
  | EmptyString => EmptyString
  | String c s' => String (f c) (map_string f s')
  end.

(** [s.lower()] and [s.upper()] *)
Definition lower : string -> string := map_string lower_char.
Definition upper : string -> string := map_string upper_char.

(** truth value of a string: [bool(s)] *)
Definition truthy (s : string) : bool :=
  match s with EmptyString => false | _ => true end.

(** [s.startswith(p)] *)
Definition startswith (s p : string) : bool := String.prefix p s.

(** [sub in s] *)
Fixpoint contains (s sub : string) : bool :=
  String.prefix sub s ||
  match s with
  | EmptyString => false
  | String _ s' => contains s' sub
  end.

(** the characters [str.split()] separates on *)
Definition is_space (c : ascii) : bool :=
  ((9 <=? code c)%N && (code c <=? 13)%N) ||
  ((28 <=? code c)%N && (code c <=? 32)%N).

(** [s.split()]: the maximal runs of non-space characters, left to right;
    [cur] is the run being read. *)
Fixpoint split_from (cur : string) (s : string) : list string :=
  match s with
  | EmptyString => if truthy cur then [cur] else []
  | String c s' =>
      if is_space c
      then (if truthy cur then cur :: split_from EmptyString s'
            else split_from EmptyString s')
      else split_from (cur ++ String c EmptyString) s'
  end.

Definition split (s : string) : list string := split_from EmptyString s.

(** [sep.join(parts)] *)
Definition join (sep : string) (parts : list string) : string :=
  String.concat sep parts.

(** [x in xs] for a list or a set of strings *)
Definition mem (x : string) (xs : list string) : bool :=
  existsb (String.eqb x) xs.

(** [list(dict.fromkeys(xs))]: first occurrences, in order *)
Fixpoint fromkeys_from (seen : list string) (xs : list string) : list string :=
  match xs with
  | [] => []
  | x :: xs' =>
      if mem x seen then fromkeys_from seen xs'
      else x :: fromkeys_from (x :: seen) xs'
  end.

Definition fromkeys (xs : list string) : list string := fromkeys_from [] xs.

(** *** The regular expression [\b[a-zA-Z0-9_-]+\b] of [_extract_keywords] *)

(** [\w] *)
Definition is_word (c : ascii) : bool :=
  is_upper c || is_lower c || is_digit c || (code c =? 95)%N.

(** the class [[a-zA-Z0-9_-]] *)
Definition in_class (c : ascii) : bool := is_word c || (code c =? 45)%N.

Definition is_word_opt (c : option ascii) : bool :=
  match c with Some c => is_word c | None => false end.

(** [\b] between the character before and the character after a position
    ([None] at either end of the text) *)
Definition boundary (before after : option ascii) : bool :=
  xorb (is_word_opt before) (is_word_opt after).

Definition head (s : string) : option ascii :=
  match s with EmptyString => None | String c _ => Some c end.

(** After the class character [last] has been consumed: the longest
    continuation inside the class that ends at a [\b] (greedy [+] with
    backtracking), [None] when no end position qualifies. *)
Fixpoint extend (last : ascii) (s : string) : option string :=
  let stop := if boundary (Some last) (head s) then Some EmptyString else None in
  match s with
  | EmptyString => stop
  | String c s' =>
      if in_class c then
        match extend c s' with
        | Some t => Some (String c t)
        | None => stop
        end
      else stop
  end.

(** the match of the pattern starting exactly at the head of [s] *)
Definition match_at (prev : option ascii) (s : string) : option string :=
  match s with
  | EmptyString => None
  | String c s' =>
      if boundary prev (Some c) && in_class c
      then option_map (String c) (extend c s')
      else None
  end.

(** [re.findall]: scan left to right; after a match the scan resumes at
    its end ([skip] counts the characters of the current match still to
    be passed). *)
Fixpoint findall_from (prev : option ascii) (skip : nat) (s : string) : list string :=
  match s with
  | EmptyString => []
  | String c s' =>
      match skip with
      | S k => findall_from (Some c) k s'
      | O =>
          match match_at prev s with
          | Some tok => tok :: findall_from (Some c) (String.length tok - 1) s'
          | None => findall_from (Some c) 0 s'
          end
      end
  end.

Definition findall (s : string) : list string := findall_from None 0 s.

(** *** SQLite [LOWER] and [LIKE] *)

(** [LOWER(x)] folds the ASCII letters only *)
Definition sql_lower : string -> string := map_string lower_char.

(** [text LIKE pattern], no [ESCAPE] clause: [%] matches any run of
    characters, [_] any one character, any other pattern character
    matches itself up to ASCII case. *)
Fixpoint like (pattern : string) : string -> bool :=
  match pattern with
  | EmptyString => fun text => negb (truthy text)
  | String p pattern' =>
      if (code p =? 37)%N then
        fix any (text : string) : bool :=
          like pattern' text ||
          match text with
          | EmptyString => false
          | String _ text' => any text'
          end
      else if (code p =? 95)%N then
        fun text =>
          match text with
          | EmptyString => false
          | String _ text' => like pattern' text'
          end
      else
        fun text =>
          match text with
          | EmptyString => false
          | String c text' =>
              Ascii.eqb (lower_char p) (lower_char c) && like pattern' text'
          end
  end.

End Text.

(** ** Exceptions and results *)

Inductive exn : Type :=
| KeyError (key : string)
| IndexError
| ImportError
| ValueError (doc_id : string)
| RuntimeError (cause : exn)
| OtherError (what : string).

Inductive result (A : Type) : Type :=
| Ok (a : A)
| Raise (e : exn).
Arguments Ok {A} a.
Arguments Raise {A} e.

Definition raises {A : Type} (r : result A) : Prop :=
  match r with Ok _ => False | Raise _ => True end.

Definition bind_result {A B : Type} (r : result A) (k : A -> result B) : result B :=
  match r with
  | Ok a => k a
  | Raise e => Raise e
  end.

(** ** JSON text of a list of strings ([json.dumps], [ensure_ascii=True]) *)

Module Json.

Definition hex_digit (n : N) : ascii :=
  if (n <? 10)%N then ascii_of_N (48 + n) else ascii_of_N (87 + n).

Definition dquote : ascii := ascii_of_N 34.
Definition backslash : ascii := ascii_of_N 92.

(** the text written for one character of a string *)
Definition escape_char (c : ascii) : string :=
  let n := Text.code c in
  if (n =? 34)%N then String backslash (String dquote EmptyString)
  else if (n =? 92)%N then "\\"
  else if (n =? 10)%N then "\n"
  else if (n =? 13)%N then "\r"
  else if (n =? 9)%N then "\t"
  else if (n =? 8)%N then "\b"
  else if (n =? 12)%N then "\f"
  else if (n <? 32)%N || (127 <? n)%N then
    "\u00" ++ String (hex_digit (n / 16)) (String (hex_digit (n mod 16)) EmptyString)
  else String c EmptyString.

Fixpoint escape (s : string) : string :=
  match s with
  | EmptyString => EmptyString
  | String c s' => escape_char c ++ escape s'
  end.

Definition quote (s : string) : string :=
  String dquote (escape s ++ String dquote EmptyString).

(** [json.dumps(xs)] for a list of strings *)
Definition dumps (xs : list string) : string :=
  "[" ++ Text.join ", " (map quote xs) ++ "]".

End Json.

(** ** The document store ([TestCaseStore]) *)

Definition timestamp := nat.

(** a step of a test case: a string, or an object with [step_text] and
    [step_expected]; anything else is skipped by the store *)
Inductive Step : Type :=
| StepStr (text : string)
| StepDict (step_text step_expected : option string)
| StepOther.

(** The test-case dictionary handed to [store_test_case]; an optional
    field is [None] when the key is absent. *)
Record TestCase : Type := {
  tc_id : option string;
  tc_title : option string;
  tc_description : option string;
  tc_steps : list Step;
  tc_expected_result : option string;
  tc_priority : option string;
  tc_tags : list string;
  tc_preconditions : list string;
  tc_source_file : option string;
  tc_created_by : option string
}.

Record Metadata : Type := {
  md_preconditions : list string;
  md_original_file : string;
  md_created_by : string
}.

(** one row of the table [test_cases]; [row_tags] and [row_components] are
    the lists whose JSON text the columns hold, [row_vector] is [None] for
    a NULL column *)
Record Row : Type := {
  row_id : string;
  row_title : string;
  row_priority : string;
  row_tags : list string;
  row_components : list string;
  row_text_blob : string;
  row_vector : option (list Q);
  row_metadata : Metadata;
  row_created_at : timestamp;
  row_updated_at : timestamp
}.

(** the dictionaries [search_by_keywords] returns, with the key
    [semantic_score] that [_semantic_rerank] adds *)
Record Candidate : Type := {
  doc_id : string;
  title : string;
  priority : string;
  tags : list string;
  components : list string;
  text_blob : string;
  metadata : Metadata;
  vector : option (list Q);
  semantic_score : option Q
}.

Module TestCaseStore.

(** the table, in rowid order *)
Definition table := list Row.

Definition ids (db : table) : list string := map row_id db.

(** [id] is the primary key *)
Definition key_unique (db : table) : Prop := NoDup (ids db).

Definition get (d : string) (o : option string) : string :=
  match o with Some s => s | None => d end.

(** [bool(test_case.get(key))] *)
Definition present (o : option string) : bool :=
  match o with Some s => Text.truthy s | None => false end.

Definition component_names : list string :=
  ["onboarding"; "positions"; "graphql"; "api"; "ui"; "auth"].

Definition names_component (s : string) : bool :=
  existsb (fun comp => Text.contains (Text.lower s) comp) component_names.

(** [_extract_components]; [list(set(components))] is modelled by the
    first occurrences in order (Python leaves the order of a set open) *)
Definition _extract_components (test_case : TestCase) : list string :=
  Text.fromkeys (filter names_component (tc_tags test_case) ++
                 filter names_component (tc_preconditions test_case)).

Definition priority_names : list string := ["P0"; "P1"; "P2"; "P3"].

(** [_extract_priority] *)
Fixpoint _extract_priority (tags : list string) : string :=
  match tags with
  | [] => "P2"
  | tag :: tags' =>
      if Text.mem (Text.upper tag) priority_names then Text.upper tag
      else _extract_priority tags'
  end.

(** [re.search(r'P([0-3])', s)]: the digit of the leftmost match *)
Fixpoint search_P_digit (s : string) : option ascii :=
  match s with
  | EmptyString => None
  | String c s' =>
      match s' with
      | String d _ =>
          if (Text.code c =? 80)%N && (48 <=? Text.code d)%N && (Text.code d <=? 51)%N
          then Some d else search_P_digit s'
      | EmptyString => None
      end
  end.

Definition any_in (words : list string) (s : string) : bool :=
  existsb (fun word => Text.contains s word) words.

(** [_extract_priority_from_string] *)
Definition _extract_priority_from_string (priority_str : string) : string :=
  if negb (Text.truthy priority_str) then "P2"
  else
    match search_P_digit (Text.upper priority_str) with
    | Some d => String "P" (String d EmptyString)
    | None =>
        let priority_lower := Text.lower priority_str in
        if any_in ["critical"; "urgent"; "p0"] priority_lower then "P0"
        else if any_in ["high"; "important"; "p1"] priority_lower then "P1"
        else if any_in ["medium"; "normal"; "p2"] priority_lower then "P2"
        else if any_in ["low"; "p3"] priority_lower then "P3"
        else "P2"
    end.

(** the priority column computed by [store_test_case] *)
Definition normalize_priority (test_case : TestCase) : string :=
  let priority := get "P2" (tc_priority test_case) in
  let priority :=
    if Text.truthy priority && negb (Text.startswith priority "P")
    then _extract_priority_from_string priority else priority in
  if negb (Text.truthy priority) || negb (Text.startswith priority "P")
  then _extract_priority (tc_tags test_case) else priority.

Definition step_parts (step : Step) : list string :=
  match step with
  | StepStr s => [s]
  | StepDict t e =>
      (if present t then [get "" t] else []) ++
      (if present e then [get "" e] else [])
  | StepOther => []
  end.

(** the text blob: description, step texts and expectations, expected
    result, joined by single spaces *)
Definition make_text_blob (test_case : TestCase) : string :=
  Text.join " "
    ((if present (tc_description test_case)
      then [get "" (tc_description test_case)] else []) ++
     flat_map step_parts (tc_steps test_case) ++
     (if present (tc_expected_result test_case)
      then [get "" (tc_expected_result test_case)] else [])).

Definition make_metadata (test_case : TestCase) : Metadata :=
  {| md_preconditions := tc_preconditions test_case;
     md_original_file := get "" (tc_source_file test_case);
     md_created_by := get "system" (tc_created_by test_case) |}.

(** [json.dumps(vector) if vector else None] *)
Definition vector_column (vector : option (list Q)) : option (list Q) :=
  match vector with
  | Some (_ :: _) => vector
  | _ => None
  end.

(** [INSERT OR REPLACE]: a row with the same key is deleted, the new row
    is added at the end *)
Definition insert_or_replace (db : table) (r : Row) : table :=
  filter (fun r' => negb (String.eqb (row_id r') (row_id r))) db ++ [r].

Section WithHash.

(** [hashlib.md5(content.encode()).hexdigest()] *)
Variable md5_hexdigest : string -> string.

(** [_generate_id] *)
Definition _generate_id (test_case : TestCase) : string :=
  String.substring 0 12
    (md5_hexdigest (get "" (tc_title test_case) ++ get "" (tc_description test_case))).

(** the row [store_test_case] writes at time [now] *)
Definition make_row (now : timestamp) (test_case : TestCase)
    (vec : option (list Q)) (title : string) : Row :=
  {| row_id := get (_generate_id test_case) (tc_id test_case);
     row_title := title;
     row_priority := normalize_priority test_case;
     row_tags := tc_tags test_case;
     row_components := _extract_components test_case;
     row_text_blob := make_text_blob test_case;
     row_vector := vector_column vec;
     row_metadata := make_metadata test_case;
     row_created_at := now;
     row_updated_at := now |}.

(** [store_test_case]: the new table and the id returned;
    [test_case["title"]] raises [KeyError] when the title is absent,
    before anything is written *)
Definition store_test_case (now : timestamp) (db : table) (test_case : TestCase)
    (vec : option (list Q)) : result (table * string) :=
  match tc_title test_case with
  | None => Raise (KeyError "title")
  | Some title =>
      let r := make_row now test_case vec title in
      Ok (insert_or_replace db r, row_id r)
  end.

End WithHash.

(** [get_test_case] *)
Definition get_test_case (db : table) (tc_id : string) : option Row :=
  find (fun r => String.eqb (row_id r) tc_id) db.

(** [update_vector] at time [now] *)
Definition update_vector (now : timestamp) (db : table) (tc_id : string)
    (vec : list Q) : table :=
  map (fun r =>
         if String.eqb (row_id r) tc_id
         then {| row_id := row_id r; row_title := row_title r;
                 row_priority := row_priority r; row_tags := row_tags r;
                 row_components := row_components r;
                 row_text_blob := row_text_blob r;
                 row_vector := Some vec; row_metadata := row_metadata r;
                 row_created_at := row_created_at r; row_updated_at := now |}
         else r) db.

(** [clear_database] *)
Definition clear_database (db : table) : table := [].

(** [get_stats()["total_test_cases"]] and [["with_vectors"]] *)
Definition total_test_cases (db : table) : nat := List.length db.
Definition with_vectors (db : table) : nat :=
  List.length (filter (fun r => match row_vector r with Some _ => true | None => false end) db).

(** *** [ORDER BY priority ASC, title ASC] and [LIMIT] *)

(** [r1] sorts strictly after [r2] (byte order on priority, then title) *)
Definition row_after (r1 r2 : Row) : bool :=
  match String.compare (row_priority r1) (row_priority r2) with
  | Lt => false
  | Gt => true
  | Eq => String.ltb (row_title r2) (row_title r1)
  end.

(** rows with equal priority and title are kept in table order (SQLite
    leaves their order open) *)
Fixpoint insert_row (r : Row) (sorted : list Row) : list Row :=
  match sorted with
  | [] => [r]
  | r' :: rest => if row_after r r' then r' :: insert_row r rest else r :: sorted
  end.

Definition order_by_priority_title (rows : list Row) : list Row :=
  fold_right insert_row [] rows.

(** [LIMIT n]: a negative [n] is no limit *)
Definition sql_limit (n : Z) (rows : list Row) : list Row :=
  if (n <? 0)%Z then rows else firstn (Z.to_nat n) rows.

(** *** [search_by_keywords] *)

Definition like_pattern (keyword : string) : string :=
  ("%" ++ Text.lower keyword ++ "%")%string.

(** one parenthesised condition of the WHERE clause *)
Definition row_matches (keyword : string) (r : Row) : bool :=
  let pattern := like_pattern keyword in
  Text.like pattern (Text.sql_lower (row_title r)) ||
  Text.like pattern (Text.sql_lower (row_text_blob r)) ||
  Text.like pattern (Text.sql_lower (Json.dumps (row_tags r))) ||
  Text.like pattern (Text.sql_lower (Json.dumps (row_components r))).

Definition where_clause (keywords : list string) (r : Row) : bool :=
  existsb (fun keyword => row_matches keyword r) keywords.

Definition to_candidate (r : Row) : Candidate :=
  {| doc_id := row_id r; title := row_title r; priority := row_priority r;
     tags := row_tags r; components := row_components r;
     text_blob := row_text_blob r; metadata := row_metadata r;
     vector := row_vector r; semantic_score := None |}.

Definition search_by_keywords (db : table) (keywords : list string) (limit : Z)
    : list Candidate :=
  match keywords with
  | [] => []
  | _ :: _ =>
      map to_candidate
        (sql_limit limit (order_by_priority_title (filter (where_clause keywords) db)))
  end.

(** [get_all_test_cases]: every row, [ORDER BY priority ASC, title ASC] *)
Definition get_all_test_cases (db : table) : list Row :=
  order_by_priority_title db.

(** [SELECT priority, COUNT( * ) ... GROUP BY priority] read into a
    dictionary: one entry per priority present, with its number of rows *)
Fixpoint count_priority (p : string) (db : table) : nat :=
  match db with
  | [] => 0%nat
  | r :: db' =>
      ((if String.eqb (row_priority r) p then 1 else 0) + count_priority p db')%nat
  end.

Definition priority_distribution (db : table) : list (string * nat) :=
  map (fun p => (p, count_priority p db)) (Text.fromkeys (map row_priority db)).

Record Stats : Type := {
  stat_total_test_cases : nat;
  stat_with_vectors : nat;
  stat_priority_distribution : list (string * nat)
}.

(** [get_stats] *)
Definition get_stats (db : table) : Stats :=
  {| stat_total_test_cases := total_test_cases db;
     stat_with_vectors := with_vectors db;
     stat_priority_distribution := priority_distribution db |}.

(** [test_case["_source_file"] = str(json_file)] *)
Definition with_source_file (path : string) (test_case : TestCase) : TestCase :=
  {| tc_id := tc_id test_case; tc_title := tc_title test_case;
     tc_description := tc_description test_case; tc_steps := tc_steps test_case;
     tc_expected_result := tc_expected_result test_case;
     tc_priority := tc_priority test_case; tc_tags := tc_tags test_case;
     tc_preconditions := tc_preconditions test_case;
     tc_source_file := Some path; tc_created_by := tc_created_by test_case |}.

Section Ingest.

Variable md5_hexdigest : string -> string.

(** the time of the [k]-th write *)
Variable clock : nat -> timestamp.

(** The loop of [store_test_cases_from_directory] from its [k]-th file on:
    a file is its path and what [json.load] gives for it; a file that
    fails to load or to store is reported and passed over.  The result is
    the table and the number of test cases stored. *)
Fixpoint store_files (k : nat) (db : table) (files : list (string * result TestCase))
    : table * nat :=
  match files with
  | [] => (db, 0%nat)
  | (json_file, loaded) :: rest =>
      match
        bind_result loaded (fun test_case =>
          store_test_case md5_hexdigest (clock k) db
            (with_source_file json_file test_case) None)
      with
      | Ok (db', _) =>
          let (db'', count) := store_files (S k) db' rest in (db'', (1 + count)%nat)
      | Raise _ => store_files (S k) db rest
      end
  end.

(** [store_test_cases_from_directory]; [files] are the [*.json] files in
    the order [glob] yields them *)
Definition store_test_cases_from_directory (db : table)
    (files : list (string * result TestCase)) : table * nat :=
  store_files 0 db files.

End Ingest.

End TestCaseStore.

(** ** The retriever ([HybridRetriever]) *)

Record RetrievalConfig : Type := {
  keyword_weight : Q;
  semantic_weight : Q;
  priority_weight : Q;
  max_candidates : Z;
  max_results : Z;
  min_similarity_threshold : Q
}.

(** the embedding provider: [encode] of one text, which may raise *)
Record EmbeddingModel : Type := {
  encode : string -> result (list Q)
}.

Record Retriever : Type := {
  store : TestCaseStore.table;
  config : RetrievalConfig;
  _embedding_model : option EmbeddingModel
}.

(** a candidate after [_apply_ranking] has set [score], [keyword_score]
    and [priority_score] on it *)
Record Scored : Type := {
  cand : Candidate;
  score : Q;
  keyword_score : Q;
  priority_score : Q
}.

(** what [load_from_cache] finds on disk: whether the database file exists,
    what opening it gives, and the dumped configuration ([None] when
    [retriever_config.json] does not exist) *)
Record CacheState : Type := {
  db_exists : bool;
  open_store : result TestCaseStore.table;
  cached_config : option (result RetrievalConfig)
}.

(** *** Calls to the embedding provider, recorded *)

Inductive Event : Type :=
| Encoded (text : string).

Record M (A : Type) : Type := {
  trace : list Event;
  outcome : result A
}.

Definition ret {A : Type} (a : A) : M A := {| trace := []; outcome := Ok a |}.
Definition raise {A : Type} (e : exn) : M A := {| trace := []; outcome := Raise e |}.
Definition emit (ev : Event) : M unit := {| trace := [ev]; outcome := Ok tt |}.
Definition lift {A : Type} (r : result A) : M A := {| trace := []; outcome := r |}.

Definition bind {A B : Type} (m : M A) (k : A -> M B) : M B :=
  match outcome m with
  | Ok a => {| trace := trace m ++ trace (k a); outcome := outcome (k a) |}
  | Raise e => {| trace := trace m; outcome := Raise e |}
  end.

(** [try: m except Exception as e: raise RuntimeError(...) from e] *)
Definition wrap_runtime {A : Type} (m : M A) : M A :=
  match outcome m with
  | Ok _ => m
  | Raise e => {| trace := trace m; outcome := Raise (RuntimeError e) |}
  end.

Declare Scope retr_scope.
Notation "x <- m ;; k" := (bind m (fun x => k))
  (at level 61, m at next level, right associativity) : retr_scope.
Notation "x <-r m ;; k" := (bind_result m (fun x => k))
  (at level 61, m at next level, right associativity) : retr_scope.
Local Open Scope retr_scope.

(** a loop whose body may raise: the first exception ends it *)
Fixpoint map_result {A B : Type} (f : A -> result B) (xs : list A) : result (list B) :=
  match xs with
  | [] => Ok []
  | x :: xs' =>
      y <-r f x ;;
      ys <-r map_result f xs' ;;
      Ok (y :: ys)
  end.

Module HybridRetriever.

Local Open Scope Q_scope.

Definition default_config : RetrievalConfig :=
  {| keyword_weight := 0.4; semantic_weight := 0.4; priority_weight := 0.2;
     max_candidates := 200; max_results := 10; min_similarity_threshold := 0.1 |}.

(** [__init__] *)
Definition init (db : TestCaseStore.table) (cfg : option RetrievalConfig) : Retriever :=
  {| store := db;
     config := match cfg with Some c => c | None => default_config end;
     _embedding_model := None |}.

Definition domain_terms : list string :=
  ["onboarding"; "positions"; "graphql"; "api"; "ui"; "auth"; "authentication";
   "booking"; "shift"; "approval"; "cancellation"; "notification"; "push";
   "token"; "refresh"; "login"; "logout"; "user"; "profile"; "settings";
   "payment"; "billing"; "subscription"; "waitlist"; "queue"; "priority"].

(** [min(a, b)] of Python: [b] when [b < a], otherwise [a] *)
Definition py_min (a b : Q) : Q := if Qle_bool a b then a else b.

(** [sum(1 for x in xs if p(x))] *)
Definition count {A : Type} (p : A -> bool) (xs : list A) : nat :=
  List.length (filter p xs).

(** [_calculate_keyword_score] *)
Definition _calculate_keyword_score (query_lower : string) (c : Candidate) : Q :=
  let words := Text.split query_lower in
  let title_l := Text.lower (title c) in
  let s1 := if existsb (fun word => Text.contains title_l word) words then 0 + 0.5 else 0 in
  let text_blob_l := Text.lower (text_blob c) in
  let matches := count (fun word => Text.contains text_blob_l word) words in
  let s2 := s1 + py_min (inject_Z (Z.of_nat matches) * 0.1) 0.3 in
  let all_tags := Text.lower (Text.join " " (tags c ++ components c)) in
  let s3 := if existsb (fun word => Text.contains all_tags word) words then s2 + 0.2 else s2 in
  py_min s3 1.0.

(** the dictionary [priority_scores] with its [get] default *)
Definition priority_scores (priority_prefix : string) : Q :=
  if String.eqb priority_prefix "P1" then 1.0
  else if String.eqb priority_prefix "P2" then 0.8
  else if String.eqb priority_prefix "P3" then 0.6
  else if String.eqb priority_prefix "P4" then 0.4
  else 0.6.

(** [_calculate_priority_score]; [priority.split()[0]] raises
    [IndexError] on a string of white space *)
Definition _calculate_priority_score (priority : string) : result Q :=
  priority_prefix <-r
    (if Text.truthy priority then
       match Text.split priority with
       | first :: _ => Ok (Text.upper first)
       | [] => Raise IndexError
       end
     else Ok "P3"%string) ;;
  Ok (priority_scores priority_prefix).

(** the weighted final score of [_apply_ranking] *)
Definition final_score (cfg : RetrievalConfig)
    (keyword_score semantic_score priority_score : Q) : Q :=
  keyword_weight cfg * keyword_score +
  semantic_weight cfg * semantic_score +
  priority_weight cfg * priority_score.

(** the body of the scoring loop of [_apply_ranking] *)
Definition score_candidate (cfg : RetrievalConfig) (query_lower : string)
    (c : Candidate) : result Scored :=
  let keyword_score := _calculate_keyword_score query_lower c in
  let semantic_score := match semantic_score c with Some s => s | None => 0.0 end in
  priority_score <-r _calculate_priority_score (priority c) ;;
  Ok {| cand := c;
        score := final_score cfg keyword_score semantic_score priority_score;
        keyword_score := keyword_score;
        priority_score := priority_score |}.

(** [sorted(candidates, key=lambda x: x["score"], reverse=True)]: the
    stable sort of Python, largest score first; an element is placed
    before the sorted elements that do not exceed it *)
Fixpoint insert_desc (x : Scored) (sorted : list Scored) : list Scored :=
  match sorted with
  | [] => [x]
  | y :: rest =>
      if Qle_bool (score y) (score x) then x :: sorted
      else y :: insert_desc x rest
  end.

Definition sorted_desc (xs : list Scored) : list Scored :=
  fold_right insert_desc [] xs.

Definition above_threshold (cfg : RetrievalConfig) (x : Scored) : bool :=
  Qle_bool (min_similarity_threshold cfg) (score x).

(** [_apply_ranking] (its log line is not modelled) *)
Definition _apply_ranking (r : Retriever) (query_text : string)
    (candidates : list Candidate) : result (list Scored) :=
  let query_lower := Text.lower query_text in
  scored <-r map_result (score_candidate (config r) query_lower) candidates ;;
  let ranked := sorted_desc scored in
  let filtered := filter (above_threshold (config r)) ranked in
  Ok filtered.

(** [xs[:k]] *)
Definition slice_to {A : Type} (k : Z) (xs : list A) : list A :=
  if (k <? 0)%Z then firstn (List.length xs - Z.to_nat (- k)) xs
  else firstn (Z.to_nat k) xs.

Section WithLibraries.

(** [sklearn.feature_extraction.text.ENGLISH_STOP_WORDS] *)
Variable ENGLISH_STOP_WORDS : list string.

(** [numpy.linalg.norm] of a vector *)
Variable np_linalg_norm : list Q -> Q.

(** importing [sentence_transformers] and constructing
    [SentenceTransformer('all-MiniLM-L6-v2')] *)
Variable SentenceTransformer : result EmbeddingModel.

(** [_extract_keywords] *)
Definition _extract_keywords (query_text : string) : list string :=
  let query_lower := Text.lower query_text in
  let domain_keywords :=
    flat_map (fun term => if Text.contains query_lower term then [term] else [])
             domain_terms in
  let words := Text.findall query_lower in
  let general_keywords :=
    filter (fun word => (2 <? String.length word)%nat &&
                        negb (Text.mem word ENGLISH_STOP_WORDS)) words in
  Text.fromkeys (domain_keywords ++ general_keywords).

(** [numpy.dot] of two vectors of one length *)
Fixpoint dot (v1 v2 : list Q) : Q :=
  match v1, v2 with
  | a :: v1', b :: v2' => a * b + dot v1' v2'
  | _, _ => 0
  end.

(** [_cosine_similarity]; vectors of different lengths make [numpy.dot]
    raise, which the function answers with [0.0] *)
Definition _cosine_similarity (vec1 vec2 : list Q) : Q :=
  if negb (List.length vec1 =? List.length vec2)%nat then 0.0
  else
    let dot_product := dot vec1 vec2 in
    let norm1 := np_linalg_norm vec1 in
    let norm2 := np_linalg_norm vec2 in
    if Qeq_bool norm1 0 || Qeq_bool norm2 0 then 0.0
    else dot_product / (norm1 * norm2).

(** [_load_embedding_model]: the retriever with a model attached *)
Definition _load_embedding_model (r : Retriever) : result Retriever :=
  match _embedding_model r with
  | Some _ => Ok r
  | None =>
      match SentenceTransformer with
      | Ok model =>
          Ok {| store := store r; config := config r;
                _embedding_model := Some model |}
      | Raise ImportError => Raise ImportError
      | Raise e => Raise e
      end
  end.

(** [_get_embedding] *)
Definition _get_embedding (r : Retriever) (text : string) : M (list Q) :=
  r' <- lift (_load_embedding_model r) ;;
  match _embedding_model r' with
  | Some model =>
      _ <- emit (Encoded text) ;;
      wrap_runtime (lift (encode model text))
  | None => raise (OtherError "no embedding model")
  end.

(** the body of the loop of [_semantic_rerank] *)
Definition rerank_candidate (query_embedding : list Q) (c : Candidate)
    : result Candidate :=
  match vector c with
  | Some (x :: v) =>
      Ok {| doc_id := doc_id c; title := title c; priority := priority c;
            tags := tags c; components := components c;
            text_blob := text_blob c; metadata := metadata c;
            vector := vector c;
            semantic_score := Some (_cosine_similarity query_embedding (x :: v)) |}
  | _ => Raise (ValueError (doc_id c))
  end.

(** [_semantic_rerank] *)
Definition _semantic_rerank (r : Retriever) (query_text : string)
    (candidates : list Candidate) : M (list Candidate) :=
  wrap_runtime
    (query_embedding <- _get_embedding r query_text ;;
     lift (map_result (rerank_candidate query_embedding) candidates)).

(** [query] *)
Definition query (r : Retriever) (query_text : string) (top_k : Z)
    : M (list Scored) :=
  let keywords := _extract_keywords query_text in
  let candidates :=
    TestCaseStore.search_by_keywords (store r) keywords (max_candidates (config r)) in
  match candidates with
  | [] => ret []
  | _ :: _ =>
      candidates <-
        (match _embedding_model r with
         | Some _ => _semantic_rerank r query_text candidates
         | None => ret candidates
         end) ;;
      ranked_results <- lift (_apply_ranking r query_text candidates) ;;
      ret (slice_to top_k ranked_results)
  end.

(** [load_from_cache]: [Ok None] is the absent result, [Raise] an
    exception reaching the caller *)
Definition load_from_cache (disk : CacheState) (cfg : option RetrievalConfig)
    : result (option Retriever) :=
  if negb (db_exists disk) then Ok None
  else
    let attempt :=
      db <-r open_store disk ;;
      let retriever := init db cfg in
      retriever <-r
        (match cached_config disk with
         | Some loaded =>
             config_data <-r loaded ;;
             Ok {| store := store retriever; config := config_data;
                   _embedding_model := _embedding_model retriever |}
         | None => Ok retriever
         end) ;;
      retriever <-r _load_embedding_model retriever ;;
      Ok retriever in
    match attempt with
    | Ok retriever => Ok (Some retriever)
    | Raise _ => Ok None
    end.

End WithLibraries.

(** *** Building, embedding and dumping *)

Section Lifecycle.

Variable md5_hexdigest : string -> string.

(** the time of the [k]-th write of a run *)
Variable clock : nat -> timestamp.

Variable SentenceTransformer : result EmbeddingModel.

(** [model.encode(texts)] for a list of texts *)
Variable encode_texts : EmbeddingModel -> list string -> result (list (list Q)).

(** [TestCaseStore(db_path)]: the existing database, or a new empty one *)
Definition open_or_create (disk : CacheState) : result TestCaseStore.table :=
  if db_exists disk then open_store disk else Ok [].

(** [from_test_case_dir] *)
Definition from_test_case_dir (disk : CacheState)
    (files : list (string * result TestCase)) (cfg : option RetrievalConfig)
    : result Retriever :=
  db <-r open_or_create disk ;;
  let (db', count) :=
    TestCaseStore.store_test_cases_from_directory md5_hexdigest clock db files in
  Ok (init db' cfg).

(** [tc.get("vector") is None] *)
Definition lacks_vector (tc : Row) : bool :=
  match row_vector tc with None => true | Some _ => false end.

(** [for tc, embedding in zip(batch, embeddings): update_vector(...)],
    the [k]-th write of the run first; the table and the number of writes
    made so far *)
Fixpoint write_vectors (k : nat) (db : TestCaseStore.table)
    (pairs : list (Row * list Q)) : TestCaseStore.table * nat :=
  match pairs with
  | [] => (db, k)
  | (tc, embedding) :: rest =>
      write_vectors (S k)
        (TestCaseStore.update_vector (clock k) db (row_id tc) embedding) rest
  end.

(** The batch loop of [generate_embeddings] over the cases still to do:
    the batch is [cases[:batch_size]], the loop goes on with
    [cases[batch_size:]]; a batch whose encoding raises is reported and
    passed over.  [fuel] bounds the number of batches.  The result is the
    texts handed to the provider and the table. *)
Fixpoint embed_batches (fuel : nat) (model : EmbeddingModel) (batch_size : nat)
    (k : nat) (db : TestCaseStore.table) (cases : list Row)
    : list Event * TestCaseStore.table :=
  match fuel, cases with
  | S fuel', _ :: _ =>
      let batch := firstn batch_size cases in
      let texts := map row_text_blob batch in
      let (db', k') :=
        match encode_texts model texts with
        | Ok embeddings => write_vectors k db (combine batch embeddings)
        | Raise _ => (db, k)
        end in
      let (calls, db'') :=
        embed_batches fuel' model batch_size k' db' (skipn batch_size cases) in
      (map Encoded texts ++ calls, db'')
  | _, _ => ([], db)
  end.

(** [generate_embeddings]: the retriever afterwards.  [range(0, n, 0)]
    raises [ValueError]; a negative step gives no batch. *)
Definition generate_embeddings (batch_size : Z) (r : Retriever) : M Retriever :=
  r <- lift (_load_embedding_model SentenceTransformer r) ;;
  match _embedding_model r with
  | None => raise (OtherError "no embedding model")
  | Some model =>
      let test_cases := TestCaseStore.get_all_test_cases (store r) in
      let cases_without_vectors := filter lacks_vector test_cases in
      match cases_without_vectors with
      | [] => ret r
      | _ :: _ =>
          if (batch_size =? 0)%Z
          then raise (ValueError "range() arg 3 must not be zero")
          else if (batch_size <? 0)%Z then ret r
          else
            let (calls, db) :=
              embed_batches (List.length cases_without_vectors) model
                (Z.to_nat batch_size) 0 (store r) cases_without_vectors in
            {| trace := calls;
               outcome := Ok {| store := db; config := config r;
                                _embedding_model := _embedding_model r |} |}
      end
  end.

(** [dump]: the configuration is written beside the database; writing the
    file is taken to succeed, as the writes to the database are *)
Definition dump (r : Retriever) (disk : CacheState) : CacheState :=
  {| db_exists := db_exists disk; open_store := open_store disk;
     cached_config := Some (Ok (config r)) |}.

End Lifecycle.

End HybridRetriever.

(** ** Setting up the retriever ([src/database/setup.py]) *)

(** the [database] section of the system configuration; a field is [None]
    when its key is absent *)
Record DbConfig : Type := {
  db_file : option string;
  db_keyword_weight : option Q;
  db_semantic_weight : option Q;
  db_priority_weight : option Q;
  db_max_candidates : option Z;
  db_min_similarity_threshold : option Q
}.

Module Setup.

Definition get {A : Type} (d : A) (o : option A) : A :=
  match o with Some a => a | None => d end.

(** the retrieval configuration built from the settings, with defaults *)
Definition retrieval_config_of (db_config : DbConfig) : RetrievalConfig :=
  {| keyword_weight := get 0.4%Q (db_keyword_weight db_config);
     semantic_weight := get 0.4%Q (db_semantic_weight db_config);
     priority_weight := get 0.2%Q (db_priority_weight db_config);
     max_candidates := get 200%Z (db_max_candidates db_config);
     max_results := 10%Z;
     min_similarity_threshold := get 0.1%Q (db_min_similarity_threshold db_config) |}.

(** the cache directory holding the database of a retriever *)
Definition holding (r : Retriever) (disk : CacheState) : CacheState :=
  {| db_exists := true; open_store := Ok (store r);
     cached_config := cached_config disk |}.

(** [clear_database_cache]: the directory is removed *)
Definition clear_database_cache (disk : CacheState) : CacheState :=
  {| db_exists := false; open_store := Raise (OtherError "no database file");
     cached_config := None |}.

Section WithLibraries.

Variable md5_hexdigest : string -> string.
Variable clock : nat -> timestamp.
Variable SentenceTransformer : result EmbeddingModel.
Variable encode_texts : EmbeddingModel -> list string -> result (list (list Q)).

(** [setup_database_retriever]: the retriever and the cache directory
    afterwards.  The source ignores an exception of [dump]; here [dump]
    has none. *)
Definition setup_database_retriever (db_config : DbConfig)
    (files : list (string * result TestCase)) (disk : CacheState)
    : M (Retriever * CacheState) :=
  let retrieval_config := retrieval_config_of db_config in
  loaded <- lift (HybridRetriever.load_from_cache SentenceTransformer disk
                    (Some retrieval_config)) ;;
  match loaded with
  | None =>
      retriever <- lift (HybridRetriever.from_test_case_dir md5_hexdigest clock
                           disk files (Some retrieval_config)) ;;
      retriever <- HybridRetriever.generate_embeddings clock SentenceTransformer
                     encode_texts 100 retriever ;;
      ret (retriever, HybridRetriever.dump retriever (holding retriever disk))
  | Some retriever =>
      ret ({| store := store retriever; config := retrieval_config;
              _embedding_model := _embedding_model retriever |}, disk)
  end.

End WithLibraries.

End Setup.

(** ** Predicates used to state the properties *)

(** [field] contains [keyword] as a substring, up to case *)
Definition contains_ci (field keyword : string) : bool :=
  Text.contains (Text.lower field) (Text.lower keyword).

(** a document mentions a keyword in its title, its text blob, one of its
    tags or components, or the stored JSON text of these lists *)
Definition mentions (keyword : string) (c : Candidate) : bool :=
  contains_ci (title c) keyword ||
  contains_ci (text_blob c) keyword ||
  existsb (fun tag => contains_ci tag keyword) (tags c) ||
  existsb (fun comp => contains_ci comp keyword) (components c) ||
  contains_ci (Json.dumps (tags c)) keyword ||
  contains_ci (Json.dumps (components c)) keyword.

(** the first white-space separated token of a string *)
Definition first_token (s : string) : option string := hd_error (Text.split s).

(** descending order of fused scores *)
Definition score_ge (a b : Scored) : Prop := (score b <= score a)%Q.

Definition has_score (s : Q) (x : Scored) : bool := Qeq_bool (score x) s.

(** every stored priority starts with [P] *)
Definition priorities_normalized (db : TestCaseStore.table) : Prop :=
  Forall (fun r => Text.startswith (row_priority r) "P" = true) db.

(** the first token of [s], upper-cased, is [name] *)
Definition has_prefix (s name : string) : Prop :=
  exists t, first_token s = Some t /\ Text.upper t = name.

(** [c] with another priority *)
Definition with_priority (p : string) (c : Candidate) : Candidate :=
  {| doc_id := doc_id c; title := title c; priority := p; tags := tags c;
     components := components c; text_blob := text_blob c;
     metadata := metadata c; vector := vector c;
     semantic_score := semantic_score c |}.

(** the candidates the keyword stage of [query] hands to the ranking stages *)
Definition keyword_stage (stop_words : list string) (r : Retriever)
    (query_text : string) : list Candidate :=
  TestCaseStore.search_by_keywords (store r)
    (HybridRetriever._extract_keywords stop_words query_text)
    (max_candidates (config r)).

(** the rows [INSERT OR REPLACE] keeps when it writes under [id] *)
Definition other_than (id : string) (r : Row) : bool :=
  negb (String.eqb (row_id r) id).

(** the id a call of [store_test_case] writes under *)
Definition stored_id (md5_hexdigest : string -> string) (test_case : TestCase)
    : string :=
  TestCaseStore.get (TestCaseStore._generate_id md5_hexdigest test_case)
                    (tc_id test_case).

(** ** Example data *)

Definition blank_case : TestCase :=
  {| tc_id := None; tc_title := None; tc_description := None; tc_steps := [];
     tc_expected_result := None; tc_priority := None; tc_tags := [];
     tc_preconditions := []; tc_source_file := None; tc_created_by := None |}.

(** a test case whose priority is given in words *)
Definition critical_case : TestCase :=
  {| tc_id := Some "tc-checkout"; tc_title := Some "Checkout fails";
     tc_description := Some "payment is declined"; tc_steps := [];
     tc_expected_result := None; tc_priority := Some "Critical";
     tc_tags := ["payment"]; tc_preconditions := [];
     tc_source_file := None; tc_created_by := None |}.

(** the first scenario of the specification: two documents *)
Definition login_case : TestCase :=
  {| tc_id := Some "tc-login"; tc_title := Some "Login flow";
     tc_description := Some "user logs in"; tc_steps := [];
     tc_expected_result := None; tc_priority := Some "P1";
     tc_tags := []; tc_preconditions := [];
     tc_source_file := None; tc_created_by := None |}.

Definition logout_case : TestCase :=
  {| tc_id := Some "tc-logout"; tc_title := Some "Logout";
     tc_description := Some "user logs out"; tc_steps := [];
     tc_expected_result := None; tc_priority := Some "P3";
     tc_tags := []; tc_preconditions := [];
     tc_source_file := None; tc_created_by := None |}.

(** a stand-in for the digest in examples where every id is supplied *)
Definition no_digest (content : string) : string := content.

(** the table after a list of [store_test_case] calls at times 1, 2, ...;
    a call that raises leaves the table as it is *)
Fixpoint store_all (now : timestamp) (db : TestCaseStore.table)
    (cases : list (TestCase * option (list Q))) : TestCaseStore.table :=
  match cases with
  | [] => db
  | (test_case, vec) :: rest =>
      match TestCaseStore.store_test_case no_digest now db test_case vec with
      | Ok (db', _) => store_all (S now) db' rest
      | Raise _ => store_all (S now) db rest
      end
  end.

Definition two_documents : TestCaseStore.table :=
  store_all 1%nat [] [(login_case, None); (logout_case, None)].

(** the same two documents, the first with a stored vector *)
Definition half_vectored : TestCaseStore.table :=
  store_all 1%nat [] [(login_case, Some [1; 0]%Q); (logout_case, None)].

Definition both_vectored : TestCaseStore.table :=
  store_all 1%nat [] [(login_case, Some [1; 0]%Q); (logout_case, Some [0; 1]%Q)].

(** a provider that embeds every text as the same vector *)
Definition constant_model : EmbeddingModel :=
  {| encode := fun _ => Ok [1; 0]%Q |}.

(** stand-ins for the libraries in examples *)
Definition some_stop_words : list string := ["the"; "and"; "for"; "not"; "with"].
Definition sum_norm (v : list Q) : Q := fold_right (fun x acc => Qabs x + acc)%Q 0%Q v.

Definition keyword_only_config : RetrievalConfig :=
  {| keyword_weight := 1; semantic_weight := 0; priority_weight := 0;
     max_candidates := 200; max_results := 10; min_similarity_threshold := 0 |}.

Definition keyword_only_retriever : Retriever :=
  {| store := two_documents; config := keyword_only_config;
     _embedding_model := None |}.

Definition half_vectored_retriever : Retriever :=
  {| store := half_vectored; config := HybridRetriever.default_config;
     _embedding_model := Some constant_model |}.

Definition vectored_retriever : Retriever :=
  {| store := both_vectored; config := HybridRetriever.default_config;
     _embedding_model := Some constant_model |}.

(** four documents, three of which tie under the default weights for the
    query "login" *)
Definition titled (id title_ priority_ : string) (description : option string)
    (tags_ : list string) : TestCase :=
  {| tc_id := Some id; tc_title := Some title_; tc_description := description;
     tc_steps := []; tc_expected_result := None; tc_priority := Some priority_;
     tc_tags := tags_; tc_preconditions := [];
     tc_source_file := None; tc_created_by := None |}.

Definition tied_documents : TestCaseStore.table :=
  store_all 1%nat []
    [(titled "tc-d" "Login" "P3" (Some "login works") ["login"], None);
     (titled "tc-b" "Login b" "P1" None [], None);
     (titled "tc-c" "Checkout" "P2" (Some "after login") [], None);
     (titled "tc-a" "Login a" "P1" None [], None)].

Definition tied_retriever : Retriever :=
  {| store := tied_documents; config := HybridRetriever.default_config;
     _embedding_model := None |}.

(** a cache whose database opens and holds the two documents, with no
    dumped configuration *)
Definition warm_cache : CacheState :=
  {| db_exists := true; open_store := Ok two_documents; cached_config := None |}.

(** the configuration [load_from_cache] ends with when it succeeds *)
Definition loaded_config (disk : CacheState) (cfg : option RetrievalConfig)
    (config_data : RetrievalConfig) : Prop :=
  match cached_config disk with
  | Some loaded => loaded = Ok config_data
  | None => config_data = match cfg with
                          | Some c => c
                          | None => HybridRetriever.default_config
                          end
  end.

(** the characters [LIKE] reads as wild cards *)
Definition is_wildcard (c : ascii) : bool :=
  (Text.code c =? 37)%N || (Text.code c =? 95)%N.

Fixpoint wildcard_free (s : string) : bool :=
  match s with
  | EmptyString => true
  | String c s' => negb (is_wildcard c) && wildcard_free s'
  end.

Definition blog_documents : TestCaseStore.table :=
  store_all 1%nat []
    [(titled "tc-blog" "Blogging tips" "P2" (Some "write a post") ["content"], None);
     (titled "tc-pay" "Refund" "P1" (Some "money returns") [], None)].

Definition blog_retriever : Retriever :=
  {| store := blog_documents; config := keyword_only_config;
     _embedding_model := None |}.



(** ** Predicates for the further properties *)

(** [r] with the vector [vec], written at time [now] *)
Definition with_vector (now : timestamp) (vec : list Q) (r : Row) : Row :=
  {| row_id := row_id r; row_title := row_title r;
     row_priority := row_priority r; row_tags := row_tags r;
     row_components := row_components r; row_text_blob := row_text_blob r;
     row_vector := Some vec; row_metadata := row_metadata r;
     row_created_at := row_created_at r; row_updated_at := now |}.

(** the content [_generate_id] hashes *)
Definition id_content (test_case : TestCase) : string :=
  (TestCaseStore.get "" (tc_title test_case) ++
   TestCaseStore.get "" (tc_description test_case))%string.

(** two test cases that collide without having the same title *)
Definition split_ab_c : TestCase :=
  {| tc_id := None; tc_title := Some "ab"; tc_description := Some "c";
     tc_steps := []; tc_expected_result := None; tc_priority := None;
     tc_tags := []; tc_preconditions := [];
     tc_source_file := None; tc_created_by := None |}.

Definition split_a_bc : TestCase :=
  {| tc_id := None; tc_title := Some "a"; tc_description := Some "bc";
     tc_steps := []; tc_expected_result := None; tc_priority := Some "P1";
     tc_tags := []; tc_preconditions := [];
     tc_source_file := None; tc_created_by := None |}.

(** a file of the test-case directory that will be stored: it loads and
    has a title *)
Definition storable (file : string * result TestCase) : bool :=
  match snd file with
  | Ok test_case => match tc_title test_case with Some _ => true | None => false end
  | Raise _ => false
  end.

(** a row sorts no later than another in the store's order *)
Definition row_le (r1 r2 : Row) : Prop := TestCaseStore.row_after r1 r2 = false.


(** a test case given only a priority and tags *)
Definition prioritised (given : option string) (tags_ : list string) : TestCase :=
  {| tc_id := Some "tc"; tc_title := Some "t"; tc_description := None;
     tc_steps := []; tc_expected_result := None; tc_priority := given;
     tc_tags := tags_; tc_preconditions := [];
     tc_source_file := None; tc_created_by := None |}.

(** the vectored store after the login document is stored again *)
Definition restored_retriever : Retriever :=
  {| store := store_all 9%nat both_vectored [(login_case, None)];
     config := HybridRetriever.default_config;
     _embedding_model := Some constant_model |}.

(** a candidate sorts no later than another in the store's order: by
    priority, then by title, both in character order *)
Definition candidate_le (c1 c2 : Candidate) : Prop :=
  match String.compare (priority c1) (priority c2) with
  | Lt => True
  | Gt => False
  | Eq => String.ltb (title c2) (title c1) = false
  end.

(** a directory of five files, one of which is not valid JSON *)
Definition five_files : list (string * result TestCase) :=
  [("a.json", Ok login_case);
   ("b.json", Raise (OtherError "JSONDecodeError"));
   ("c.json", Ok logout_case);
   ("d.json", Ok critical_case);
   ("e.json", Ok (titled "tc-e" "Export" "Low" None []))].

Definition unit_clock (k : nat) : timestamp := k.

(** [r] with another [max_results] in its configuration *)
Definition with_max_results (m : Z) (r : Retriever) : Retriever :=
  {| store := store r;
     config := {| keyword_weight := keyword_weight (config r);
                  semantic_weight := semantic_weight (config r);
                  priority_weight := priority_weight (config r);
                  max_candidates := max_candidates (config r);
                  max_results := m;
                  min_similarity_threshold := min_similarity_threshold (config r) |};
     _embedding_model := _embedding_model r |}.

(** what [_extract_keywords] keeps of the words of the text *)
Definition general_keyword (stop_words : list string) (word : string) : bool :=
  (2 <? String.length word)%nat && negb (Text.mem word stop_words).

(** a row has a vector stored *)
Definition embedded (r : Row) : Prop := row_vector r <> None.

(** every row stored under [id] has a vector *)
Definition id_embedded (db : TestCaseStore.table) (id : string) : Prop :=
  forall r, In r db -> row_id r = id -> embedded r.

(** a provider that answers every batch, one vector per text *)
Definition answers_every_batch
    (encode_texts : EmbeddingModel -> list string -> result (list (list Q)))
    (model : EmbeddingModel) : Prop :=
  forall texts, exists embeddings,
    encode_texts model texts = Ok embeddings /\
    List.length embeddings = List.length texts.

(** a stand-in provider for examples: the length of the text as a vector *)
Definition length_vectors (model : EmbeddingModel) (texts : list string)
    : result (list (list Q)) :=
  Ok (map (fun t => [inject_Z (Z.of_nat (String.length t)); 1]%Q) texts).

(** the effect of one batch of [generate_embeddings] on the table: the
    table and the number of writes made *)
Definition batch_table (clock : nat -> timestamp)
    (encode_texts : EmbeddingModel -> list string -> result (list (list Q)))
    (model : EmbeddingModel) (k : nat) (db : TestCaseStore.table)
    (batch : list Row) : TestCaseStore.table * nat :=
  match encode_texts model (map row_text_blob batch) with
  | Ok embeddings => HybridRetriever.write_vectors clock k db (combine batch embeddings)
  | Raise _ => (db, k)
  end.




(** the configuration a retriever is created with *)
Definition config_or_default (cfg : option RetrievalConfig) : RetrievalConfig :=
  match cfg with Some c => c | None => HybridRetriever.default_config end.

(** the cache directory holds the database of [r] *)
Definition persisted (r : Retriever) (disk : CacheState) : Prop :=
  db_exists disk = true /\ open_store disk = Ok (store r).

(** the dumped configuration, if there is one, can be read *)
Definition config_readable (disk : CacheState) : Prop :=
  match cached_config disk with Some (Raise _) => False | _ => True end.

(** a cache directory without a database, and settings without any key *)
Definition fresh_disk : CacheState :=
  {| db_exists := false; open_store := Raise (OtherError "no database file");
     cached_config := None |}.

Definition plain_settings : DbConfig :=
  {| db_file := None; db_keyword_weight := None; db_semantic_weight := None;
     db_priority_weight := None; db_max_candidates := None;
     db_min_similarity_threshold := None |}.
(** * Properties *)

(** ** Text primitives on examples *)

Example split_ex : Text.split "  P2 - High " = ["P2"; "-"; "High"].
Proof. reflexivity. Qed.

Example findall_ex :
  Text.findall "-foo- a--b user_id x! --" = ["foo"; "a--b"; "user_id"; "x"].
Proof. reflexivity. Qed.

Example like_ex :
  Text.like "%a_c%" "xxABcyy" = true /\ Text.like "%a_c%" "xxacyy" = false.
Proof. split; reflexivity. Qed.

Example dumps_length_ex : String.length (Json.dumps ["api"; "P1"]) = 13%nat.
Proof. reflexivity. Qed.

Example extract_priority_from_string_ex :
  map TestCaseStore._extract_priority_from_string
      ["High"; "2 - p1"; "urgent!"; "whatever"; "Low"]
  = ["P1"; "P1"; "P0"; "P2"; "P3"].
Proof. reflexivity. Qed.

(** ** Score fusion *)

Module Fusion.
Import HybridRetriever.
Local Open Scope Q_scope.

Lemma final_score_keyword cfg ks ks' ss ps :
  0 <= keyword_weight cfg -> ks <= ks' ->
  final_score cfg ks ss ps <= final_score cfg ks' ss ps.
Proof. unfold final_score. intros Hw Hk. nra. Qed.

Lemma final_score_semantic cfg ks ss ss' ps :
  0 <= semantic_weight cfg -> ss <= ss' ->
  final_score cfg ks ss ps <= final_score cfg ks ss' ps.
Proof. unfold final_score. intros Hw Hs. nra. Qed.

Lemma final_score_priority cfg ks ss ps ps' :
  0 <= priority_weight cfg -> ps <= ps' ->
  final_score cfg ks ss ps <= final_score cfg ks ss ps'.
Proof. unfold final_score. intros Hw Hp. nra. Qed.

(** C5. With non-negative weights the fused score
    [keyword_weight*keyword_score + semantic_weight*semantic_score +
    priority_weight*priority_score] never decreases when one of the three
    scores is raised and the other two are held fixed. *)
Theorem final_score_monotone (cfg : RetrievalConfig) :
  0 <= keyword_weight cfg -> 0 <= semantic_weight cfg -> 0 <= priority_weight cfg ->
  forall ks ss ps : Q,
    (forall ks', ks <= ks' -> final_score cfg ks ss ps <= final_score cfg ks' ss ps) /\
    (forall ss', ss <= ss' -> final_score cfg ks ss ps <= final_score cfg ks ss' ps) /\
    (forall ps', ps <= ps' -> final_score cfg ks ss ps <= final_score cfg ks ss ps').
Proof.
  intros Hk Hs Hp ks ss ps. repeat split; intros.
  - now apply final_score_keyword.
  - now apply final_score_semantic.
  - now apply final_score_priority.
Qed.

Lemma final_score_monotone_witness :
  final_score default_config 0.5 0 0.8 <= final_score default_config 0.7 0 0.8 /\
  final_score default_config 0.5 0 0.8 <= final_score default_config 0.5 0.3 0.8 /\
  final_score default_config 0.5 0 0.8 <= final_score default_config 0.5 0 1.0.
Proof.
  assert (H := final_score_monotone default_config).
  assert (Hk : 0 <= keyword_weight default_config) by (vm_compute; discriminate).
  assert (Hs : 0 <= semantic_weight default_config) by (vm_compute; discriminate).
  assert (Hp : 0 <= priority_weight default_config) by (vm_compute; discriminate).
  destruct (H Hk Hs Hp 0.5 0 0.8) as (H1 & H2 & H3).
  repeat split.
  - apply H1. vm_compute; discriminate.
  - apply H2. vm_compute; discriminate.
  - apply H3. vm_compute; discriminate.
Defined.

(** the second scenario of the specification: weights (0.4, 0.4, 0.2) and
    scores (0.5, 0.0, 0.8) fuse to 0.36, below a threshold of 0.5 *)
Example final_score_scenario :
  final_score default_config 0.5 0.0 0.8 == 0.36 /\
  Qle_bool 0.5 (final_score default_config 0.5 0.0 0.8) = false.
Proof. split; reflexivity. Qed.

End Fusion.

(** ** Priority scores *)

Module PriorityScore.
Import HybridRetriever.
Local Open Scope Q_scope.

Lemma score_of_prefix p name :
  has_prefix p name ->
  _calculate_priority_score p = Ok (priority_scores name).
Proof.
  intros (t & Ht & Hu). unfold _calculate_priority_score, first_token in *.
  destruct p as [|c p]; [discriminate Ht|]. cbn [Text.truthy].
  destruct (Text.split (String c p)) as [|first rest]; [discriminate Ht|].
  cbn in Ht. injection Ht as ->. cbn. now rewrite Hu.
Qed.

Lemma priority_scores_default name :
  ~ In name ["P1"; "P2"; "P3"; "P4"]%string -> priority_scores name = 0.6.
Proof.
  intros Hn. unfold priority_scores.
  destruct (String.eqb_spec name "P1"); [exfalso; apply Hn; subst; cbn; tauto|].
  destruct (String.eqb_spec name "P2"); [exfalso; apply Hn; subst; cbn; tauto|].
  destruct (String.eqb_spec name "P3"); [reflexivity|].
  destruct (String.eqb_spec name "P4"); [exfalso; apply Hn; subst; cbn; tauto|].
  reflexivity.
Qed.

(** C4. The priority score is 1.0, 0.8, 0.6, 0.4 for a priority whose
    first white-space separated token is P1, P2, P3, P4 up to case, and
    0.6 for any other first token and for an empty (missing) priority;
    so the scores of P1, P2, P3, P4 are strictly decreasing. *)
Theorem priority_score_table :
  (forall p, has_prefix p "P1" -> _calculate_priority_score p = Ok 1.0) /\
  (forall p, has_prefix p "P2" -> _calculate_priority_score p = Ok 0.8) /\
  (forall p, has_prefix p "P3" -> _calculate_priority_score p = Ok 0.6) /\
  (forall p, has_prefix p "P4" -> _calculate_priority_score p = Ok 0.4) /\
  (forall p name, has_prefix p name -> ~ In name ["P1"; "P2"; "P3"; "P4"]%string ->
                  _calculate_priority_score p = Ok 0.6) /\
  _calculate_priority_score "" = Ok 0.6 /\
  (forall p1 p2 p3 p4,
      has_prefix p1 "P1" -> has_prefix p2 "P2" ->
      has_prefix p3 "P3" -> has_prefix p4 "P4" ->
      exists s1 s2 s3 s4,
        _calculate_priority_score p1 = Ok s1 /\
        _calculate_priority_score p2 = Ok s2 /\
        _calculate_priority_score p3 = Ok s3 /\
        _calculate_priority_score p4 = Ok s4 /\
        s4 < s3 /\ s3 < s2 /\ s2 < s1).
Proof.
  repeat split.
  - intros p H. now rewrite (score_of_prefix H).
  - intros p H. now rewrite (score_of_prefix H).
  - intros p H. now rewrite (score_of_prefix H).
  - intros p H. now rewrite (score_of_prefix H).
  - intros p name H Hn. rewrite (score_of_prefix H).
    now rewrite priority_scores_default.
  - intros p1 p2 p3 p4 H1 H2 H3 H4.
    exists 1.0, 0.8, 0.6, 0.4.
    rewrite (score_of_prefix H1), (score_of_prefix H2),
      (score_of_prefix H3), (score_of_prefix H4).
    repeat split; reflexivity.
Qed.

Lemma has_prefix_intro p t name :
  first_token p = Some t -> Text.upper t = name -> has_prefix p name.
Proof. intros H1 H2. exists t. split; assumption. Defined.

Lemma priority_score_table_witness :
  _calculate_priority_score "p1 - critical" = Ok 1.0 /\
  _calculate_priority_score "P2 - High" = Ok 0.8 /\
  _calculate_priority_score " p3" = Ok 0.6 /\
  _calculate_priority_score "P4" = Ok 0.4 /\
  _calculate_priority_score "P0" = Ok 0.6 /\
  exists s1 s2 s3 s4,
    _calculate_priority_score "p1 - critical" = Ok s1 /\
    _calculate_priority_score "P2 - High" = Ok s2 /\
    _calculate_priority_score " p3" = Ok s3 /\
    _calculate_priority_score "P4" = Ok s4 /\
    s4 < s3 /\ s3 < s2 /\ s2 < s1.
Proof.
  destruct priority_score_table as (T1 & T2 & T3 & T4 & T5 & _ & T7).
  assert (H1 : has_prefix "p1 - critical" "P1")
    by (apply (@has_prefix_intro _ "p1"); reflexivity).
  assert (H2 : has_prefix "P2 - High" "P2")
    by (apply (@has_prefix_intro _ "P2"); reflexivity).
  assert (H3 : has_prefix " p3" "P3")
    by (apply (@has_prefix_intro _ "p3"); reflexivity).
  assert (H4 : has_prefix "P4" "P4")
    by (apply (@has_prefix_intro _ "P4"); reflexivity).
  assert (H0 : has_prefix "P0" "P0")
    by (apply (@has_prefix_intro _ "P0"); reflexivity).
  refine (conj (T1 _ H1) (conj (T2 _ H2) (conj (T3 _ H3) (conj (T4 _ H4)
            (conj _ (T7 _ _ _ _ H1 H2 H3 H4)))))).
  apply (T5 _ _ H0). cbn. intros [H|[H|[H|[H|[]]]]]; discriminate H.
Defined.

(** a priority of white space only has no first token: the call raises *)
Example blank_priority_raises : _calculate_priority_score "  " = Raise IndexError.
Proof. reflexivity. Qed.



(** C9. A stored priority [P0], which the store's normalisation produces
    (from a priority in words such as "Critical", or from a tag [p0]) and
    which sorts first in the store's order, gets the priority score 0.6:
    the score of P3 and of an unrecognised or missing priority.  Two
    candidates that differ only in having priority P0 or P3 get the same
    fused score. *)
Theorem p0_scored_as_p3 :
  TestCaseStore.normalize_priority critical_case = "P0"%string /\
  TestCaseStore._extract_priority_from_string "urgent" = "P0"%string /\
  TestCaseStore._extract_priority ["smoke"; "p0"]%string = "P0"%string /\
  _calculate_priority_score "P0" = Ok 0.6 /\
  _calculate_priority_score "P0" = _calculate_priority_score "P3" /\
  _calculate_priority_score "P0" = _calculate_priority_score "" /\
  _calculate_priority_score "P0" = _calculate_priority_score "Px" /\
  (forall cfg query_lower c,
      exists a b,
        score_candidate cfg query_lower (with_priority "P0" c) = Ok a /\
        score_candidate cfg query_lower (with_priority "P3" c) = Ok b /\
        priority_score a = 0.6 /\ priority_score b = 0.6 /\
        score a = score b).
Proof.
  repeat split; try reflexivity.
  intros cfg query_lower c. unfold score_candidate.
  cbn [with_priority priority semantic_score].
  change (_calculate_priority_score "P0") with (Ok (A:=Q) 0.6).
  change (_calculate_priority_score "P3") with (Ok (A:=Q) 0.6).
  cbn [bind_result]. eexists. eexists. repeat split; reflexivity.
Qed.

End PriorityScore.

(** ** The query pipeline *)

Lemma map_result_raises {A B : Type} (f : A -> result B) (xs : list A) (x : A) :
  In x xs -> raises (f x) -> raises (map_result f xs).
Proof.
  induction xs as [|y ys IH]; intros Hin Hx; [destruct Hin|].
  cbn. destruct (f y) eqn:Ey; cbn; [|exact I].
  destruct Hin as [->|Hin].
  - rewrite Ey in Hx. destruct Hx.
  - specialize (IH Hin Hx). destruct (map_result f ys); cbn; [destruct IH | exact I].
Qed.

Lemma map_result_ok {A B : Type} (f : A -> result B) (xs : list A) (ys : list B) :
  map_result f xs = Ok ys -> Forall2 (fun x y => f x = Ok y) xs ys.
Proof.
  revert ys. induction xs as [|x xs IH]; intros ys H; cbn in H.
  - injection H as <-. constructor.
  - destruct (f x) eqn:Ex; cbn in H; [|discriminate H].
    destruct (map_result f xs) eqn:Exs; cbn in H; [|discriminate H].
    injection H as <-. constructor; auto.
Qed.


Lemma In_firstn_In {A : Type} (n : nat) (xs : list A) (x : A) :
  In x (firstn n xs) -> In x xs.
Proof.
  revert xs. induction n as [|n IH]; intros [|y ys] H; cbn in H; try contradiction.
  destruct H as [->|H]; [now left | right; now apply IH].
Qed.

Lemma In_slice_to {A : Type} (k : Z) (xs : list A) (x : A) :
  In x (HybridRetriever.slice_to k xs) -> In x xs.
Proof.
  unfold HybridRetriever.slice_to. destruct (k <? 0)%Z; apply In_firstn_In.
Qed.

Lemma outcome_bind {A B : Type} (m : M A) (k : A -> M B) :
  outcome (bind m k) =
  match outcome m with Ok a => outcome (k a) | Raise e => Raise e end.
Proof. unfold bind. now destruct (outcome m). Qed.

Lemma outcome_wrap_runtime {A : Type} (m : M A) :
  outcome (wrap_runtime m) =
  match outcome m with Ok a => Ok a | Raise e => Raise (RuntimeError e) end.
Proof. unfold wrap_runtime. now destruct (outcome m) eqn:E. Qed.

Module Query.
Import HybridRetriever.

Section WithLibraries.

Variable ENGLISH_STOP_WORDS : list string.
Variable np_linalg_norm : list Q -> Q.
Variable SentenceTransformer : result EmbeddingModel.

Local Abbreviation _extract_keywords := (_extract_keywords ENGLISH_STOP_WORDS).
Local Abbreviation _semantic_rerank :=
  (_semantic_rerank np_linalg_norm SentenceTransformer).
Local Abbreviation query :=
  (query ENGLISH_STOP_WORDS np_linalg_norm SentenceTransformer).

Lemma load_attached r model :
  _embedding_model r = Some model ->
  _load_embedding_model SentenceTransformer r = Ok r.
Proof. unfold _load_embedding_model. now intros ->. Qed.

Lemma rerank_raises r query_text candidates c :
  In c candidates -> vector c = None ->
  exists e, outcome (_semantic_rerank r query_text candidates) = Raise (RuntimeError e).
Proof.
  intros Hin Hvec. unfold HybridRetriever._semantic_rerank.
  rewrite outcome_wrap_runtime, outcome_bind.
  destruct (outcome (_get_embedding SentenceTransformer r query_text)) as [emb|e'];
    [|eauto].
  cbn [lift outcome].
  assert (Hr : raises (map_result (rerank_candidate np_linalg_norm emb) candidates)).
  { apply map_result_raises with (x := c); [exact Hin|].
    unfold rerank_candidate. rewrite Hvec. exact I. }
  destruct (map_result _ candidates); [destruct Hr | eauto].
Qed.

(** C1. With an embedding provider attached, a query whose keyword
    stage returns a candidate without a stored vector raises an error
    and yields no result list, whatever the other candidates are. *)
Theorem query_fails_on_missing_vector r query_text top_k model c :
  _embedding_model r = Some model ->
  In c (keyword_stage ENGLISH_STOP_WORDS r query_text) ->
  vector c = None ->
  exists e, outcome (query r query_text top_k) = Raise (RuntimeError e).
Proof.
  intros Hmodel Hin Hvec. unfold HybridRetriever.query. unfold keyword_stage in Hin.
  destruct (TestCaseStore.search_by_keywords _ _ _) as [|c0 cs]; [destruct Hin|].
  rewrite Hmodel.
  destruct (rerank_raises r query_text (c0 :: cs) c Hin Hvec) as [e He].
  exists e. rewrite outcome_bind. now rewrite He.
Qed.

(** C10. [search_by_keywords] with no keywords returns the empty list
    for every table and limit; a query whose text yields no keyword
    returns the empty list with no call to the embedding provider and
    no scoring, whatever the store, the configuration and the
    provider are. *)
Theorem no_keywords_no_results :
  (forall db limit, TestCaseStore.search_by_keywords db [] limit = []) /\
  (forall r query_text top_k,
      _extract_keywords query_text = [] ->
      query r query_text top_k = ret []).
Proof.
  split; [reflexivity|].
  intros r query_text top_k Hkw. unfold HybridRetriever.query.
  now rewrite Hkw.
Qed.

(** a text with no domain term in it, all of whose words are stop
    words or at most two characters long, yields no keyword *)
Lemma stop_words_only query_text :
  Forall (fun term => Text.contains (Text.lower query_text) term = false)
         domain_terms ->
  Forall (fun word => (String.length word <= 2)%nat \/
                      Text.mem word ENGLISH_STOP_WORDS = true)
         (Text.findall (Text.lower query_text)) ->
  _extract_keywords query_text = [].
Proof.
  intros Hdom Hwords. unfold HybridRetriever._extract_keywords.
  assert (E1 : flat_map (fun term => if Text.contains (Text.lower query_text) term
                                     then [term] else []) domain_terms = []).
  { induction Hdom as [|t ts Ht _ IH]; [reflexivity|]. cbn [flat_map].
    now rewrite Ht, IH. }
  rewrite E1. cbn [app].
  match goal with |- Text.fromkeys ?l = [] => assert (E2 : l = []) end.
  { induction Hwords as [|w ws Hw _ IH]; [reflexivity|]. cbn [filter].
    destruct Hw as [Hlen|Hstop].
    - apply Nat.ltb_ge in Hlen. rewrite Hlen. exact IH.
    - rewrite Hstop, andb_false_r. exact IH. }
  now rewrite E2.
Qed.

(** C3. Every element of the list a query returns has a fused score at
    least [min_similarity_threshold]; nothing scored below the
    threshold is in it. *)
Theorem threshold_enforced r query_text top_k results :
  outcome (query r query_text top_k) = Ok results ->
  Forall (fun x => (min_similarity_threshold (config r) <= score x)%Q) results /\
  (forall x, (score x < min_similarity_threshold (config r))%Q -> ~ In x results).
Proof.
  intros H.
  assert (Hall : Forall (fun x => (min_similarity_threshold (config r) <= score x)%Q)
                        results).
  { apply Forall_forall. intros x Hx.
    unfold HybridRetriever.query in H.
    destruct (TestCaseStore.search_by_keywords _ _ _) as [|c0 cs].
    - cbn in H. injection H as <-. destruct Hx.
    - rewrite outcome_bind in H.
      match type of H with context [match outcome ?m with _ => _ end] =>
        destruct (outcome m) as [cands|e] end; [|discriminate H].
      rewrite outcome_bind in H. cbn [lift outcome] in H.
      destruct (_apply_ranking r query_text cands) as [ranked|e] eqn:Er;
        [|discriminate H].
      cbn in H. injection H as <-.
      apply In_slice_to in Hx.
      unfold _apply_ranking in Er.
      destruct (map_result _ cands) as [scored|e]; [|discriminate Er].
      cbn in Er. injection Er as <-.
      apply filter_In in Hx. destruct Hx as [_ Hx].
      now apply Qle_bool_iff in Hx. }
  split; [exact Hall|].
  intros x Hlt Hin. rewrite Forall_forall in Hall.
  specialize (Hall x Hin). apply (Qlt_not_le _ _ Hlt Hall).
Qed.

End WithLibraries.

Local Abbreviation run_query :=
  (query some_stop_words sum_norm (Raise ImportError)).

Lemma query_fails_on_missing_vector_witness :
  exists e, outcome (run_query half_vectored_retriever "user login" 10%Z)
            = Raise (RuntimeError e).
Proof.
  eapply (@query_fails_on_missing_vector some_stop_words sum_norm (Raise ImportError)
            half_vectored_retriever "user login" 10%Z constant_model).
  - reflexivity.
  - vm_compute. right. left. reflexivity.
  - reflexivity.
Defined.

(** the third scenario of the specification in small: the vectored
    candidate is not returned either *)
Example partial_rerank_returns_nothing :
  map doc_id (keyword_stage some_stop_words half_vectored_retriever "user login")
    = ["tc-login"; "tc-logout"]%string /\
  outcome (run_query half_vectored_retriever "user login" 10%Z)
    = Raise (RuntimeError (ValueError "tc-logout")).
Proof. split; vm_compute; reflexivity. Qed.

Lemma no_keywords_no_results_witness :
  run_query half_vectored_retriever "The and of it" 10%Z = ret [].
Proof.
  destruct (no_keywords_no_results some_stop_words sum_norm (Raise ImportError))
    as [_ H].
  apply H. reflexivity.
Defined.

Lemma threshold_enforced_witness :
  exists results,
    outcome (run_query vectored_retriever "user login" 10%Z) = Ok results /\
    map (fun x => doc_id (cand x)) results = ["tc-login"; "tc-logout"]%string /\
    Forall (fun x => (0.1 <= score x)%Q) results.
Proof.
  eexists. split; [vm_compute; reflexivity|]. split; [reflexivity|].
  eapply (@threshold_enforced some_stop_words sum_norm (Raise ImportError)
            vectored_retriever "user login" 10%Z).
  vm_compute; reflexivity.
Defined.

(** the first scenario of the specification: the query "login" with
    weights (1, 0, 0) and threshold 0 returns the login document only *)
Example login_scenario :
  exists results,
    run_query keyword_only_retriever "login" 10%Z
      = {| trace := []; outcome := Ok results |} /\
    map (fun x => doc_id (cand x)) results = ["tc-login"]%string.
Proof. eexists. split; [vm_compute; reflexivity | reflexivity]. Qed.

End Query.

(** ** The final ranking *)

Module Ranking.
Import HybridRetriever.
Local Open Scope Q_scope.

Lemma insert_desc_perm x xs : Permutation (insert_desc x xs) (x :: xs).
Proof.
  induction xs as [|y ys IH]; cbn; [reflexivity|].
  destruct (Qle_bool (score y) (score x)); [reflexivity|].
  rewrite IH. apply perm_swap.
Qed.

Lemma sorted_desc_perm xs : Permutation (sorted_desc xs) xs.
Proof.
  induction xs as [|x xs IH]; cbn; [reflexivity|].
  rewrite insert_desc_perm. now constructor.
Qed.

Lemma insert_desc_sorted x xs :
  StronglySorted score_ge xs -> StronglySorted score_ge (insert_desc x xs).
Proof.
  induction 1 as [|y ys Hs IH Hy]; cbn.
  - constructor; constructor.
  - destruct (Qle_bool (score y) (score x)) eqn:E.
    + apply Qle_bool_iff in E. constructor; [now constructor|].
      constructor; [exact E|].
      rewrite Forall_forall in *. intros z Hz. unfold score_ge in *.
      specialize (Hy z Hz). lra.
    + assert (Hlt : score x < score y).
      { apply Qnot_le_lt. intros Hle. apply Qle_bool_iff in Hle. congruence. }
      constructor; [exact IH|].
      rewrite Forall_forall in *. intros z Hz.
      apply (Permutation_in _ (insert_desc_perm x ys)) in Hz.
      destruct Hz as [<-|Hz]; [unfold score_ge; lra | now apply Hy].
Qed.

Lemma sorted_desc_sorted xs : StronglySorted score_ge (sorted_desc xs).
Proof.
  induction xs as [|x xs IH]; cbn; [constructor | now apply insert_desc_sorted].
Qed.

(** inserting an element does not move it past an element of equal score *)
Lemma insert_desc_stable s x xs :
  filter (has_score s) (insert_desc x xs) = filter (has_score s) (x :: xs).
Proof.
  induction xs as [|y ys IH]; [reflexivity|].
  cbn [insert_desc]. destruct (Qle_bool (score y) (score x)) eqn:E; [reflexivity|].
  cbn [filter] in *. rewrite IH.
  destruct (has_score s x) eqn:Ex, (has_score s y) eqn:Ey; try reflexivity.
  exfalso. unfold has_score in Ex, Ey.
  apply Qeq_bool_iff in Ex, Ey.
  assert (Hle : score y <= score x) by (rewrite Ex, Ey; apply Qle_refl).
  apply Qle_bool_iff in Hle. congruence.
Qed.

Lemma sorted_desc_stable s xs :
  filter (has_score s) (sorted_desc xs) = filter (has_score s) xs.
Proof.
  induction xs as [|x xs IH]; [reflexivity|].
  cbn [sorted_desc fold_right]. rewrite insert_desc_stable.
  cbn [filter]. fold (sorted_desc xs). now rewrite IH.
Qed.

Lemma filter_swap {A : Type} (p q : A -> bool) (xs : list A) :
  filter p (filter q xs) = filter q (filter p xs).
Proof.
  induction xs as [|x xs IH]; [reflexivity|]. cbn.
  destruct (p x) eqn:Ep, (q x) eqn:Eq; cbn; rewrite ?Ep, ?Eq, IH; reflexivity.
Qed.

Lemma filter_sorted {A : Type} (R : A -> A -> Prop) (p : A -> bool) (xs : list A) :
  StronglySorted R xs -> StronglySorted R (filter p xs).
Proof.
  induction 1 as [|x xs Hs IH Hx]; cbn; [constructor|].
  destruct (p x); [|exact IH].
  constructor; [exact IH|].
  rewrite Forall_forall in *. intros y Hy. apply filter_In in Hy. now apply Hx.
Qed.

Lemma has_score_refl x : has_score (score x) x = true.
Proof. apply Qeq_bool_iff. reflexivity. Qed.

(** a list in descending order is determined by the order inside each
    class of equal scores: any stable descending sort gives the result of
    [sorted_desc] *)
Lemma descending_stable_unique xs ys :
  StronglySorted score_ge xs -> StronglySorted score_ge ys ->
  (forall s, filter (has_score s) xs = filter (has_score s) ys) ->
  xs = ys.
Proof.
  intros Hxs. revert ys. induction Hxs as [|x xs Hs IH Hx]; intros ys Hys Heq.
  - destruct ys as [|y ys]; [reflexivity|].
    specialize (Heq (score y)). cbn [filter] in Heq.
    rewrite has_score_refl in Heq. discriminate Heq.
  - destruct Hys as [|y ys Hsy Hy].
    + specialize (Heq (score x)). cbn [filter] in Heq.
      rewrite has_score_refl in Heq. discriminate Heq.
    + assert (Hxy : score x == score y).
      { apply Qle_antisym.
        - assert (Hin : In x (filter (has_score (score x)) (y :: ys))).
          { rewrite <- Heq. cbn [filter]. rewrite has_score_refl. now left. }
          apply filter_In in Hin. destruct Hin as [[->|Hin] _]; [apply Qle_refl|].
          rewrite Forall_forall in Hy. apply (Hy x Hin).
        - assert (Hin : In y (filter (has_score (score y)) (x :: xs))).
          { rewrite Heq. cbn [filter]. rewrite has_score_refl. now left. }
          apply filter_In in Hin. destruct Hin as [[->|Hin] _]; [apply Qle_refl|].
          rewrite Forall_forall in Hx. apply (Hx y Hin). }
      assert (Hy1 : has_score (score x) y = true).
      { apply Qeq_bool_iff. now symmetry. }
      assert (Hhead : x = y).
      { specialize (Heq (score x)). cbn [filter] in Heq.
        rewrite has_score_refl, Hy1 in Heq. now injection Heq. }
      subst y. f_equal. apply IH; [exact Hsy|].
      intros s. specialize (Heq s). cbn [filter] in Heq.
      destruct (has_score s x); [now injection Heq | exact Heq].
Qed.

Lemma score_candidate_cand cfg query_lower c x :
  score_candidate cfg query_lower c = Ok x -> cand x = c.
Proof.
  unfold score_candidate. destruct (_calculate_priority_score (priority c)); cbn;
    [|discriminate]. now intros [= <-].
Qed.

Lemma map_result_cand cfg query_lower cs xs :
  map_result (score_candidate cfg query_lower) cs = Ok xs -> map cand xs = cs.
Proof.
  intros H. apply map_result_ok in H.
  induction H as [|c x cs xs Hc _ IH]; [reflexivity|].
  cbn. f_equal; [now apply score_candidate_cand in Hc | exact IH].
Qed.

(** C6. The ranking is the stable descending sort by fused score of the
    scored candidates that reach the threshold: it is in descending order
    of score, it holds exactly those candidates, and the candidates of any
    one score appear in the order in which the store returned them. *)
Theorem ranking_stable r query_text candidates ranked :
  _apply_ranking r query_text candidates = Ok ranked ->
  exists scored,
    map_result (score_candidate (config r) (Text.lower query_text)) candidates
      = Ok scored /\
    map cand scored = candidates /\
    StronglySorted score_ge ranked /\
    Permutation ranked (filter (above_threshold (config r)) scored) /\
    forall s,
      filter (has_score s) ranked
      = filter (has_score s) (filter (above_threshold (config r)) scored).
Proof.
  unfold _apply_ranking. intros H.
  destruct (map_result _ candidates) as [scored|e] eqn:E; [|discriminate H].
  cbn in H. injection H as <-. exists scored.
  split; [reflexivity|]. split; [now apply map_result_cand in E|].
  split; [apply filter_sorted, sorted_desc_sorted|].
  split.
  - clear E. generalize (sorted_desc_perm scored).
    generalize (sorted_desc scored). intros l Hp.
    induction Hp; cbn.
    + constructor.
    + destruct (above_threshold (config r) x); [now constructor | assumption].
    + destruct (above_threshold (config r) x), (above_threshold (config r) y);
        try reflexivity. apply perm_swap.
    + etransitivity; eassumption.
  - intros s. rewrite filter_swap, sorted_desc_stable. apply filter_swap.
Qed.

Lemma ranking_stable_witness :
  exists ranked,
    _apply_ranking tied_retriever "login"
      (keyword_stage some_stop_words tied_retriever "login") = Ok ranked /\
    map doc_id (keyword_stage some_stop_words tied_retriever "login")
      = ["tc-a"; "tc-b"; "tc-c"; "tc-d"]%string /\
    map (fun x => doc_id (cand x)) ranked = ["tc-d"; "tc-a"; "tc-b"; "tc-c"]%string /\
    StronglySorted score_ge ranked.
Proof.
  eexists. split; [vm_compute; reflexivity|].
  split; [vm_compute; reflexivity|]. split; [reflexivity|].
  edestruct (@ranking_stable tied_retriever "login"
               (keyword_stage some_stop_words tied_retriever "login"))
    as (scored & _ & _ & Hsorted & _); [vm_compute; reflexivity | exact Hsorted].
Defined.

End Ranking.

(** ** The document store *)

Module Store.
Import TestCaseStore.

Lemma insert_or_replace_eq db r :
  insert_or_replace db r = filter (other_than (row_id r)) db ++ [r].
Proof. reflexivity. Qed.

Lemma filter_other_absent id db :
  ~ In id (ids db) -> filter (other_than id) db = db.
Proof.
  induction db as [|r db IH]; intros Hn; [reflexivity|]. cbn.
  unfold other_than at 1. destruct (String.eqb_spec (row_id r) id) as [E|E].
  - exfalso. apply Hn. left. exact E.
  - cbn. f_equal. apply IH. intros H. apply Hn. now right.
Qed.

(** deleting a key that is present removes exactly one row *)
Lemma filter_other_present id db :
  key_unique db -> In id (ids db) ->
  S (List.length (filter (other_than id) db)) = List.length db.
Proof.
  unfold key_unique. induction db as [|r db IH]; intros Hu Hin; [destruct Hin|].
  cbn in Hu. inversion Hu as [|? ? Hnot Hu']; subst. cbn.
  unfold other_than at 1. destruct (String.eqb_spec (row_id r) id) as [E|E]; cbn.
  - subst id. now rewrite filter_other_absent.
  - f_equal. apply IH; [exact Hu'|]. destruct Hin as [Hin|Hin]; [contradiction|exact Hin].
Qed.

Lemma ids_filter_other id db :
  ~ In id (ids (filter (other_than id) db)).
Proof.
  unfold ids. rewrite in_map_iff. intros (r & Hr & Hin).
  apply filter_In in Hin. destruct Hin as [_ Hin]. unfold other_than in Hin.
  rewrite Hr, String.eqb_refl in Hin. discriminate Hin.
Qed.

Lemma key_unique_filter p db : key_unique db -> key_unique (filter p db).
Proof.
  unfold key_unique, ids. induction db as [|r db IH]; intros Hu; [exact Hu|].
  cbn in *. inversion Hu as [|? ? Hnot Hu']; subst.
  destruct (p r); [|now apply IH]. cbn. constructor; [|now apply IH].
  intros Hin. apply Hnot. apply in_map_iff in Hin. destruct Hin as (r' & Hr' & Hin).
  apply filter_In in Hin. apply in_map_iff. exists r'. tauto.
Qed.

Lemma key_unique_insert db r : key_unique db -> key_unique (insert_or_replace db r).
Proof.
  intros Hu. rewrite insert_or_replace_eq. unfold key_unique, ids.
  rewrite map_app. apply NoDup_app.
  - now apply key_unique_filter.
  - cbn. constructor; [intros [] | constructor].
  - intros id Hin [<-|[]]. now apply (@ids_filter_other (row_id r) db).
Qed.

Lemma find_app {A : Type} (p : A -> bool) (xs ys : list A) :
  find p (xs ++ ys) = match find p xs with Some x => Some x | None => find p ys end.
Proof.
  induction xs as [|x xs IH]; [reflexivity|]. cbn. now destruct (p x).
Qed.

Lemma find_filter {A : Type} (p q : A -> bool) (xs : list A) :
  (forall x, p x = true -> q x = true) -> find p (filter q xs) = find p xs.
Proof.
  intros Hpq. induction xs as [|x xs IH]; [reflexivity|]. cbn.
  destruct (q x) eqn:Eq; cbn.
  - now rewrite IH.
  - destruct (p x) eqn:Ep; [|exact IH]. apply Hpq in Ep. congruence.
Qed.

Lemma get_absent db id : ~ In id (ids db) -> get_test_case db id = None.
Proof.
  intros Hn. unfold get_test_case. destruct (find _ db) as [r|] eqn:E; [|reflexivity].
  apply find_some in E. destruct E as [Hin E]. apply String.eqb_eq in E.
  exfalso. apply Hn. unfold ids. apply in_map_iff. eauto.
Qed.

(** the row just written is the row read back *)
Lemma get_inserted db r : get_test_case (insert_or_replace db r) (row_id r) = Some r.
Proof.
  rewrite insert_or_replace_eq. unfold get_test_case. rewrite find_app.
  fold (get_test_case (filter (other_than (row_id r)) db) (row_id r)).
  rewrite get_absent by apply ids_filter_other.
  cbn. now rewrite String.eqb_refl.
Qed.

(** the rows of other ids are as before *)
Lemma get_other db r id :
  id <> row_id r -> get_test_case (insert_or_replace db r) id = get_test_case db id.
Proof.
  intros Hne. rewrite insert_or_replace_eq. unfold get_test_case. rewrite find_app.
  rewrite find_filter.
  - destruct (find _ db); [reflexivity|]. cbn.
    destruct (String.eqb_spec (row_id r) id); [congruence | reflexivity].
  - intros x Hx. apply String.eqb_eq in Hx. unfold other_than.
    destruct (String.eqb_spec (row_id x) (row_id r)); [congruence | reflexivity].
Qed.

Section WithHash.

Variable md5_hexdigest : string -> string.

Local Abbreviation make_row := (make_row md5_hexdigest).
Local Abbreviation store_test_case := (store_test_case md5_hexdigest).
Local Abbreviation stored_id := (stored_id md5_hexdigest).

(** C7. Storing a test case whose id is already in the table leaves the
    number of rows unchanged, and the row then read back under that id is
    the row made from the second call alone: every column, the vector and
    both timestamps included, holds the second call's value.  The other
    rows are untouched and the id stays a key. *)
Theorem store_existing_id_overwrites now db test_case vec title :
  key_unique db ->
  tc_title test_case = Some title ->
  In (stored_id test_case) (ids db) ->
  exists db',
    store_test_case now db test_case vec = Ok (db', stored_id test_case) /\
    total_test_cases db' = total_test_cases db /\
    get_test_case db' (stored_id test_case)
      = Some (make_row now test_case vec title) /\
    (forall id, id <> stored_id test_case ->
                get_test_case db' id = get_test_case db id) /\
    key_unique db'.
Proof.
  intros Hu Ht Hin. unfold TestCaseStore.store_test_case. rewrite Ht.
  eexists. split; [reflexivity|].
  set (r := make_row now test_case vec title).
  change (stored_id test_case) with (row_id r) in *.
  repeat split.
  - unfold total_test_cases. rewrite insert_or_replace_eq, last_length.
    now apply filter_other_present.
  - apply get_inserted.
  - intros id Hne. now apply get_other.
  - now apply key_unique_insert.
Qed.

(** a first store of a new id adds one row *)
Lemma store_new_id_adds now db test_case vec title :
  tc_title test_case = Some title ->
  ~ In (stored_id test_case) (ids db) ->
  exists db',
    store_test_case now db test_case vec = Ok (db', stored_id test_case) /\
    total_test_cases db' = S (total_test_cases db) /\
    In (stored_id test_case) (ids db').
Proof.
  intros Ht Hn. unfold TestCaseStore.store_test_case. rewrite Ht.
  eexists. split; [reflexivity|].
  set (r := make_row now test_case vec title).
  change (stored_id test_case) with (row_id r) in *.
  rewrite insert_or_replace_eq, filter_other_absent by exact Hn. split.
  - unfold total_test_cases. apply last_length.
  - unfold ids. rewrite map_app. apply in_or_app. right. now left.
Qed.

(** a test case without a title raises and writes nothing *)
Lemma store_untitled_raises now db test_case vec :
  tc_title test_case = None ->
  store_test_case now db test_case vec = Raise (KeyError "title").
Proof. unfold TestCaseStore.store_test_case. now intros ->. Qed.

End WithHash.

(** the normalised priority starts with [P] *)
Lemma extract_priority_P tags_ :
  Text.startswith (_extract_priority tags_) "P" = true.
Proof.
  induction tags_ as [|tag rest IH]; [reflexivity|]. cbn [_extract_priority].
  destruct (Text.mem (Text.upper tag) priority_names) eqn:E; [|exact IH].
  unfold Text.mem, priority_names in E. cbn [existsb] in E.
  repeat (apply orb_prop in E; destruct E as [E|E]);
    try (apply String.eqb_eq in E; rewrite E; reflexivity).
  discriminate E.
Qed.

Lemma normalize_priority_P test_case :
  Text.startswith (normalize_priority test_case) "P" = true.
Proof.
  unfold normalize_priority.
  match goal with |- context [if negb (Text.truthy ?p) || negb (Text.startswith ?p "P")
                               then _ else _] =>
    destruct (Text.truthy p); cbn [negb orb];
    [destruct (Text.startswith p "P") eqn:E; cbn [negb]; [exact E|] |];
    apply extract_priority_P
  end.
Qed.

Lemma insert_or_replace_normalized db r :
  priorities_normalized db -> Text.startswith (row_priority r) "P" = true ->
  priorities_normalized (insert_or_replace db r).
Proof.
  unfold priorities_normalized. rewrite !Forall_forall. intros Hdb Hr x Hx.
  rewrite insert_or_replace_eq in Hx. apply in_app_or in Hx.
  destruct Hx as [Hx|[<-|[]]]; [|exact Hr].
  apply filter_In in Hx. now apply Hdb.
Qed.

(** [store_test_case] keeps every stored priority normalised *)
Lemma store_test_case_normalized md5_hexdigest now db test_case vec db' id :
  priorities_normalized db ->
  TestCaseStore.store_test_case md5_hexdigest now db test_case vec = Ok (db', id) ->
  priorities_normalized db'.
Proof.
  unfold TestCaseStore.store_test_case. intros Hdb H.
  destruct (tc_title test_case); [|discriminate H]. injection H as <- _.
  apply insert_or_replace_normalized; [exact Hdb|]. apply normalize_priority_P.
Qed.

Lemma update_vector_normalized now db id vec :
  priorities_normalized db -> priorities_normalized (update_vector now db id vec).
Proof.
  unfold priorities_normalized, update_vector. rewrite !Forall_forall.
  intros Hdb x Hx. apply in_map_iff in Hx. destruct Hx as (r & <- & Hr).
  destruct (String.eqb (row_id r) id); cbn; now apply Hdb.
Qed.

End Store.

Lemma store_existing_id_overwrites_witness :
  exists db',
    TestCaseStore.store_test_case no_digest 7%nat two_documents
      (titled "tc-login" "Sign in" "low" (Some "user signs in") ["auth"]) None
    = Ok (db', "tc-login") /\
    TestCaseStore.total_test_cases db' = 2%nat /\
    option_map row_title (TestCaseStore.get_test_case db' "tc-login") = Some "Sign in" /\
    option_map row_priority (TestCaseStore.get_test_case db' "tc-login") = Some "P3" /\
    option_map row_created_at (TestCaseStore.get_test_case db' "tc-login") = Some 7%nat.
Proof.
  destruct (@Store.store_existing_id_overwrites no_digest 7%nat two_documents
              (titled "tc-login" "Sign in" "low" (Some "user signs in") ["auth"])
              None "Sign in") as (db' & Hstore & Hcount & Hget & _).
  - unfold TestCaseStore.key_unique. vm_compute.
    constructor; [intros [H|[]]; discriminate H|].
    constructor; [intros []|constructor].
  - reflexivity.
  - vm_compute. left. reflexivity.
  - change (stored_id no_digest _) with "tc-login"%string in Hstore, Hget.
    exists db'. split; [exact Hstore|]. split; [exact Hcount|].
    rewrite Hget. repeat split.
Defined.

(** ** Loading from the cache *)

Module Cache.
Import HybridRetriever.

(** Against C8 as stated: with the database opening and the provider
    failing to load, [load_from_cache] gives the absent result; no
    retriever in keyword-only mode is returned. *)
Lemma attach_failure_gives_no_retriever :
  db_exists warm_cache = true /\
  open_store warm_cache = Ok two_documents /\
  ~ exists r,
      load_from_cache (Raise ImportError) warm_cache None = Ok (Some r) /\
      store r = two_documents /\
      _embedding_model r = None.
Proof.
  split; [reflexivity|]. split; [reflexivity|].
  intros (r & H & _). discriminate H.
Qed.

Section WithProvider.

Variable SentenceTransformer : result EmbeddingModel.

Local Abbreviation load_from_cache := (load_from_cache SentenceTransformer).

Lemma load_model_fresh db cfg :
  _load_embedding_model SentenceTransformer
    {| store := db; config := cfg; _embedding_model := None |}
  = match SentenceTransformer with
    | Ok model => Ok {| store := db; config := cfg; _embedding_model := Some model |}
    | Raise e => Raise e
    end.
Proof.
  unfold _load_embedding_model. cbn.
  destruct SentenceTransformer as [model|e]; [reflexivity|]. now destruct e.
Qed.

(** C8, as the code has it.  [load_from_cache] never raises.  It gives the
    absent result when the database file does not exist, when opening it
    fails, when the dumped configuration cannot be read, and also when the
    embedding provider cannot be loaded.  When all of these succeed it
    gives a retriever bound to the opened store, with the loaded provider
    attached and the dumped configuration if there is one. *)
Theorem load_from_cache_outcomes disk cfg :
  (exists answer, load_from_cache disk cfg = Ok answer) /\
  (db_exists disk = false -> load_from_cache disk cfg = Ok None) /\
  (raises (open_store disk) -> load_from_cache disk cfg = Ok None) /\
  (forall e, cached_config disk = Some (Raise e) ->
             load_from_cache disk cfg = Ok None) /\
  (raises SentenceTransformer -> load_from_cache disk cfg = Ok None) /\
  (forall db model config_data,
      db_exists disk = true -> open_store disk = Ok db ->
      loaded_config disk cfg config_data ->
      SentenceTransformer = Ok model ->
      load_from_cache disk cfg
      = Ok (Some {| store := db; config := config_data;
                    _embedding_model := Some model |})).
Proof.
  unfold HybridRetriever.load_from_cache, loaded_config.
  destruct (db_exists disk); cbn [negb].
  2: { repeat split; eauto; try discriminate. }
  destruct (open_store disk) as [db|e]; cbn [bind_result raises].
  2: { repeat split; eauto; try discriminate; try contradiction. }
  unfold init. cbn [store config _embedding_model].
  destruct (cached_config disk) as [[config_data|e]|]; cbn [bind_result];
    rewrite ?load_model_fresh; destruct SentenceTransformer as [model|e'];
    cbn [bind_result raises]; repeat split; eauto; try discriminate;
    try contradiction; try congruence.
Qed.

End WithProvider.

Lemma load_from_cache_outcomes_witness :
  load_from_cache (Raise ImportError) warm_cache None = Ok None /\
  load_from_cache (Ok constant_model) warm_cache None
  = Ok (Some {| store := two_documents; config := default_config;
                _embedding_model := Some constant_model |}).
Proof.
  destruct (load_from_cache_outcomes (Raise ImportError) warm_cache None)
    as (_ & _ & _ & _ & Hfail & _).
  destruct (load_from_cache_outcomes (Ok constant_model) warm_cache None)
    as (_ & _ & _ & _ & _ & Hgood).
  split.
  - apply Hfail. exact I.
  - apply (Hgood two_documents constant_model default_config); reflexivity.
Defined.

End Cache.

(** ** The keyword filter *)

Module KeywordFilter.
Import TestCaseStore.

(** C2 on the code.  The keyword [log_in], which [_extract_keywords] gives
    for the query text "log_in", selects the document titled "Blogging
    tips": [_] in the [LIKE] pattern stands for any character.  No field of
    that document contains [log_in].  In the same way the keyword [%]
    selects every document. *)
Theorem wildcard_keyword_selects_unrelated_document :
  HybridRetriever._extract_keywords some_stop_words "log_in" = ["log_in"] /\
  map doc_id (search_by_keywords blog_documents ["log_in"] 200) = ["tc-blog"] /\
  existsb (mentions "log_in") (search_by_keywords blog_documents ["log_in"] 200)
    = false /\
  map doc_id (search_by_keywords blog_documents ["%"] 200) = ["tc-pay"; "tc-blog"] /\
  existsb (mentions "%") (search_by_keywords blog_documents ["%"] 200) = false /\
  (exists results,
      HybridRetriever.query some_stop_words sum_norm (Raise ImportError)
        blog_retriever "log_in" 10
      = ret results /\
      map (fun x => doc_id (cand x)) results = ["tc-blog"]).
Proof.
  repeat (split; [vm_compute; reflexivity|]).
  eexists. split; vm_compute; reflexivity.
Qed.

End KeywordFilter.

(** ** Keywords without wild cards *)

Module LiteralKeywords.
Import TestCaseStore.

Lemma lower_char_idem c : Text.lower_char (Text.lower_char c) = Text.lower_char c.
Proof. destruct c as [[] [] [] [] [] [] [] []]; reflexivity. Qed.

Lemma lower_char_wildcard c : is_wildcard (Text.lower_char c) = is_wildcard c.
Proof. destruct c as [[] [] [] [] [] [] [] []]; reflexivity. Qed.

Lemma lower_idem s : Text.lower (Text.lower s) = Text.lower s.
Proof.
  unfold Text.lower. induction s as [|c s IH]; [reflexivity|]. cbn.
  now rewrite lower_char_idem, IH.
Qed.

Lemma lower_app a b : Text.lower (a ++ b) = (Text.lower a ++ Text.lower b)%string.
Proof.
  unfold Text.lower. induction a as [|c a IH]; [reflexivity|]. cbn. now rewrite IH.
Qed.

Lemma wildcard_free_lower s : wildcard_free (Text.lower s) = wildcard_free s.
Proof.
  unfold Text.lower. induction s as [|c s IH]; [reflexivity|]. cbn.
  now rewrite lower_char_wildcard, IH.
Qed.

Lemma prefix_app a b : String.prefix a (a ++ b) = true.
Proof.
  induction a as [|c a IH]; cbn; [now destruct b|].
  destruct (Ascii.ascii_dec c c) as [_|Hne]; [exact IH | now elim Hne].
Qed.

Lemma contains_unfold s sub :
  Text.contains s sub =
  String.prefix sub s ||
  match s with EmptyString => false | String _ s' => Text.contains s' sub end.
Proof. now destruct s. Qed.

Lemma contains_app a b c : Text.contains (a ++ b ++ c) b = true.
Proof.
  induction a as [|x a IH]; rewrite contains_unfold.
  - cbn [append]. now rewrite prefix_app.
  - cbn [append]. rewrite IH. apply orb_true_r.
Qed.

Lemma like_percent_unfold pat t :
  Text.like (String "%" pat) t =
  Text.like pat t ||
  match t with
  | EmptyString => false
  | String _ t' => Text.like (String "%" pat) t'
  end.
Proof. now destruct t. Qed.

Lemma like_literal_unfold p pat t :
  is_wildcard p = false ->
  Text.like (String p pat) t =
  match t with
  | EmptyString => false
  | String c t' =>
      Ascii.eqb (Text.lower_char p) (Text.lower_char c) && Text.like pat t'
  end.
Proof.
  unfold is_wildcard. intros H. apply orb_false_elim in H. destruct H as [H1 H2].
  cbn [Text.like]. rewrite H1, H2. now destruct t.
Qed.

(** a leading [%] skips a prefix of the text *)
Lemma like_percent pat t :
  Text.like (String "%" pat) t = true ->
  exists t0 t', t = (t0 ++ t')%string /\ Text.like pat t' = true.
Proof.
  induction t as [|c t IH]; rewrite like_percent_unfold; intros H.
  - rewrite orb_false_r in H. now exists EmptyString, EmptyString.
  - apply orb_prop in H. destruct H as [H|H].
    + now exists EmptyString, (String c t).
    + destruct (IH H) as (t0 & t' & -> & H'). now exists (String c t0), t'.
Qed.

(** a pattern without wild cards matches the text character by character,
    up to case *)
Lemma like_literal k rest t :
  wildcard_free k = true -> Text.like (k ++ rest) t = true ->
  exists t1 t2,
    t = (t1 ++ t2)%string /\ Text.lower t1 = Text.lower k /\ Text.like rest t2 = true.
Proof.
  revert t. induction k as [|p k IH]; intros t Hk H.
  - now exists EmptyString, t.
  - cbn in Hk. apply andb_prop in Hk. destruct Hk as [Hp Hk].
    apply negb_true_iff in Hp. cbn [append] in H.
    rewrite like_literal_unfold in H by exact Hp.
    destruct t as [|c t]; [discriminate H|].
    apply andb_prop in H. destruct H as [Hc H].
    apply Ascii.eqb_eq in Hc.
    destruct (IH t Hk H) as (t1 & t2 & -> & Hl & H').
    exists (String c t1), t2. cbn. now rewrite Hl, Hc.
Qed.

(** for a keyword without wild cards, the [LIKE] condition on a column is
    containment up to case *)
Lemma like_pattern_contains keyword field :
  wildcard_free keyword = true ->
  Text.like (like_pattern keyword) (Text.sql_lower field) = true ->
  contains_ci field keyword = true.
Proof.
  intros Hk H. unfold like_pattern in H. cbn [append] in H.
  apply like_percent in H. destruct H as (t0 & t' & Ht & H).
  apply like_literal in H; [|now rewrite wildcard_free_lower].
  destruct H as (t1 & t2 & -> & Hl & _).
  rewrite lower_idem in Hl. unfold contains_ci.
  change (Text.sql_lower field) with (Text.lower field) in Ht.
  rewrite <- (lower_idem field), Ht, !lower_app, Hl.
  apply contains_app.
Qed.

Lemma In_insert_row x r rows : In x (insert_row r rows) -> x = r \/ In x rows.
Proof.
  induction rows as [|r' rows IH]; cbn.
  - intros [<-|[]]. now left.
  - destruct (row_after r r'); cbn.
    + intros [<-|H]; [right; now left|]. destruct (IH H); [now left | right; now right].
    + intros [<-|H]; [now left | now right].
Qed.

Lemma In_order_by x rows : In x (order_by_priority_title rows) -> In x rows.
Proof.
  induction rows as [|r rows IH]; cbn; [exact (fun H => H)|].
  intros H. apply In_insert_row in H. destruct H as [->|H]; [now left | right; now apply IH].
Qed.

Lemma In_sql_limit x n rows : In x (sql_limit n rows) -> In x rows.
Proof.
  unfold sql_limit. destruct (n <? 0)%Z; [exact (fun H => H) | apply In_firstn_In].
Qed.

(** every candidate returned is a row of the table that satisfies the
    WHERE clause *)
Lemma search_selected db keywords limit c :
  In c (search_by_keywords db keywords limit) ->
  exists r, In r db /\ c = to_candidate r /\ where_clause keywords r = true.
Proof.
  unfold search_by_keywords. destruct keywords as [|kw kws]; [intros []|].
  intros H. apply in_map_iff in H. destruct H as (r & <- & H).
  apply In_sql_limit, In_order_by, filter_In in H. destruct H as [Hin Hw].
  now exists r.
Qed.

(** When no keyword holds [%] or [_], every document returned contains one
    of the keywords, up to case, in its title, its text blob, or the stored
    text of its tags or of its components. *)
Theorem search_sound_without_wildcards db keywords limit c :
  Forall (fun keyword => wildcard_free keyword = true) keywords ->
  In c (search_by_keywords db keywords limit) ->
  exists keyword,
    In keyword keywords /\
    (contains_ci (title c) keyword = true \/
     contains_ci (text_blob c) keyword = true \/
     contains_ci (Json.dumps (tags c)) keyword = true \/
     contains_ci (Json.dumps (components c)) keyword = true).
Proof.
  intros Hfree H. apply search_selected in H. destruct H as (r & _ & -> & Hw).
  unfold where_clause in Hw. apply existsb_exists in Hw.
  destruct Hw as (keyword & Hin & Hm). exists keyword. split; [exact Hin|].
  rewrite Forall_forall in Hfree. specialize (Hfree keyword Hin).
  unfold row_matches in Hm. cbn [to_candidate title text_blob tags components].
  apply orb_prop in Hm. destruct Hm as [Hm|Hcomponents].
  - apply orb_prop in Hm. destruct Hm as [Hm|Htags].
    + apply orb_prop in Hm. destruct Hm as [Htitle|Hblob].
      * left. now apply like_pattern_contains.
      * right. left. now apply like_pattern_contains.
    + right. right. left. now apply like_pattern_contains.
  - right. right. right. now apply like_pattern_contains.
Qed.

Lemma search_sound_without_wildcards_witness :
  exists keyword,
    In keyword ["login"; "user"] /\
    (contains_ci "Logout" keyword = true \/
     contains_ci "user logs out" keyword = true \/
     contains_ci (Json.dumps []) keyword = true \/
     contains_ci (Json.dumps []) keyword = true).
Proof.
  apply (@search_sound_without_wildcards two_documents ["login"; "user"] 200%Z
           (to_candidate (TestCaseStore.make_row no_digest 2%nat logout_case None "Logout"))).
  - repeat constructor.
  - vm_compute. right. left. reflexivity.
Defined.

End LiteralKeywords.

(** ** Queries that return *)

Module Totality.
Import HybridRetriever.





Section WithLibraries.

Variable ENGLISH_STOP_WORDS : list string.
Variable np_linalg_norm : list Q -> Q.
Variable SentenceTransformer : result EmbeddingModel.

Local Abbreviation query :=
  (query ENGLISH_STOP_WORDS np_linalg_norm SentenceTransformer).




Lemma rerank_keeps_order emb candidates reranked :
  map_result (rerank_candidate np_linalg_norm emb) candidates = Ok reranked ->
  map doc_id reranked = map doc_id candidates.
Proof.
  intros H. apply map_result_ok in H.
  induction H as [|c c' cs cs' Hc _ IH]; [reflexivity|].
  cbn. f_equal; [|exact IH]. unfold rerank_candidate in Hc.
  destruct (vector c) as [[|x v]|]; try discriminate Hc. now injection Hc as <-.
Qed.

(** what a query returns is the head of the ranking of the keyword stage's
    candidates, taken in the store's order *)
Lemma query_returns_ranking_prefix r query_text top_k results :
  outcome (query r query_text top_k) = Ok results ->
  (keyword_stage ENGLISH_STOP_WORDS r query_text = [] /\ results = []) \/
  exists candidates ranked,
    map doc_id candidates
      = map doc_id (keyword_stage ENGLISH_STOP_WORDS r query_text) /\
    _apply_ranking r query_text candidates = Ok ranked /\
    results = slice_to top_k ranked.
Proof.
  unfold HybridRetriever.query, keyword_stage. intros H.
  destruct (TestCaseStore.search_by_keywords _ _ _) as [|c cs].
  - left. cbn in H. injection H as <-. now split.
  - right. rewrite outcome_bind in H.
    assert (Hc : exists candidates,
               map doc_id candidates = map doc_id (c :: cs) /\
               outcome (ranked_results <- lift (_apply_ranking r query_text candidates) ;;
                        ret (slice_to top_k ranked_results)) = Ok results).
    { destruct (_embedding_model r) as [model|].
      - unfold _semantic_rerank in H.
        rewrite outcome_wrap_runtime, outcome_bind in H.
        destruct (outcome (_get_embedding SentenceTransformer r query_text))
          as [emb|e]; [|discriminate H].
        cbn [lift outcome] in H.
        destruct (map_result _ (c :: cs)) as [reranked|e] eqn:E; [|discriminate H].
        exists reranked. split; [now apply rerank_keeps_order in E | exact H].
      - exists (c :: cs). split; [reflexivity | exact H]. }
    destruct Hc as (candidates & Hids & Hc). exists candidates.
    rewrite outcome_bind in Hc. cbn [lift outcome] in Hc.
    destruct (_apply_ranking r query_text candidates) as [ranked|e]; [|discriminate Hc].
    cbn in Hc. injection Hc as <-. exists ranked. now repeat split.
Qed.

End WithLibraries.

End Totality.

(** * Further properties *)

(** ** Writing and reading rows *)

Module StoreRoundTrip.
Import TestCaseStore.

Lemma mem_In x xs : Text.mem x xs = true <-> In x xs.
Proof.
  unfold Text.mem. rewrite existsb_exists. split.
  - intros (y & Hy & E). apply String.eqb_eq in E. now subst.
  - intros H. exists x. split; [exact H | apply String.eqb_refl].
Qed.

Section WithHash.

Variable md5_hexdigest : string -> string.

Local Abbreviation make_row := (make_row md5_hexdigest).
Local Abbreviation store_test_case := (store_test_case md5_hexdigest).

(** X1. Whenever [store_test_case] returns, the test case had a title, the
    id returned is the one supplied or generated, reading that id back
    gives the row just made, the id stays a key, and the table has the
    same size if the id was present and one row more if it was new. *)
Theorem store_then_get now db test_case vec db' id :
  key_unique db ->
  store_test_case now db test_case vec = Ok (db', id) ->
  exists title,
    tc_title test_case = Some title /\
    id = stored_id md5_hexdigest test_case /\
    get_test_case db' id = Some (make_row now test_case vec title) /\
    key_unique db' /\
    total_test_cases db' =
      (if Text.mem id (ids db) then total_test_cases db
       else S (total_test_cases db)).
Proof.
  intros Hu H. unfold TestCaseStore.store_test_case in H.
  destruct (tc_title test_case) as [title|]; [|discriminate H].
  injection H as <- <-. exists title.
  set (r := make_row now test_case vec title).
  change (get (_generate_id md5_hexdigest test_case) (tc_id test_case))
    with (row_id r).
  change (stored_id md5_hexdigest test_case) with (row_id r).
  split; [reflexivity|]. split; [reflexivity|].
  split; [apply Store.get_inserted|].
  split; [now apply Store.key_unique_insert|].
  unfold total_test_cases. rewrite Store.insert_or_replace_eq, last_length.
  destruct (Text.mem (row_id r) (ids db)) eqn:E.
  - apply mem_In in E. now apply Store.filter_other_present.
  - rewrite Store.filter_other_absent; [reflexivity|].
    intros Hin. apply mem_In in Hin. congruence.
Qed.

(** X2. The generated id depends only on the title followed by the
    description: two test cases without an id whose title and description
    concatenate to the same text are written under one id, so storing the
    second replaces the first. *)
Theorem same_content_one_row now1 now2 db tc1 tc2 title1 title2 vec1 vec2 :
  key_unique db ->
  tc_id tc1 = None -> tc_id tc2 = None ->
  tc_title tc1 = Some title1 -> tc_title tc2 = Some title2 ->
  id_content tc1 = id_content tc2 ->
  exists db1 db2 id,
    store_test_case now1 db tc1 vec1 = Ok (db1, id) /\
    store_test_case now2 db1 tc2 vec2 = Ok (db2, id) /\
    total_test_cases db2 = total_test_cases db1 /\
    get_test_case db2 id = Some (make_row now2 tc2 vec2 title2).
Proof.
  intros Hu Hid1 Hid2 Ht1 Ht2 Hc.
  assert (Hsame : stored_id md5_hexdigest tc1 = stored_id md5_hexdigest tc2).
  { unfold stored_id, _generate_id. rewrite Hid1, Hid2. cbn.
    unfold id_content in Hc. now rewrite Hc. }
  unfold TestCaseStore.store_test_case. rewrite Ht1, Ht2.
  pose (r1 := make_row now1 tc1 vec1 title1).
  pose (r2 := make_row now2 tc2 vec2 title2).
  change (stored_id md5_hexdigest tc1) with (row_id r1) in Hsame.
  change (stored_id md5_hexdigest tc2) with (row_id r2) in Hsame.
  exists (insert_or_replace db r1), (insert_or_replace (insert_or_replace db r1) r2),
    (row_id r1).
  split; [reflexivity|].
  split; [fold r2; now rewrite Hsame|]. split.
  - unfold total_test_cases.
    rewrite (Store.insert_or_replace_eq (insert_or_replace db r1) r2), last_length.
    apply Store.filter_other_present; [now apply Store.key_unique_insert|].
    rewrite <- Hsame, Store.insert_or_replace_eq. unfold ids.
    rewrite map_app. apply in_or_app. right. now left.
  - rewrite Hsame. apply Store.get_inserted.
Qed.

End WithHash.

Lemma store_then_get_witness :
  exists title,
    Some "Logout" = Some title /\
    TestCaseStore.get_test_case two_documents "tc-logout"
    = Some (TestCaseStore.make_row no_digest 2%nat logout_case None title).
Proof.
  destruct (@store_then_get no_digest 2%nat
              (store_all 1%nat [] [(login_case, None)]) logout_case None
              two_documents "tc-logout")
    as (title & Ht & _ & Hget & _).
  - unfold key_unique. vm_compute. constructor; [intros []|constructor].
  - reflexivity.
  - exists title. split; [exact Ht | exact Hget].
Defined.

Lemma same_content_one_row_witness :
  exists db1 db2 id,
    TestCaseStore.store_test_case no_digest 1%nat [] split_ab_c None = Ok (db1, id) /\
    TestCaseStore.store_test_case no_digest 2%nat db1 split_a_bc None = Ok (db2, id) /\
    TestCaseStore.total_test_cases db2 = TestCaseStore.total_test_cases db1 /\
    option_map row_title (TestCaseStore.get_test_case db2 id) = Some "a".
Proof.
  destruct (@same_content_one_row no_digest 1%nat 2%nat [] split_ab_c split_a_bc
              "ab" "a" None None)
    as (db1 & db2 & id & H1 & H2 & Hn & Hget); try reflexivity.
  - constructor.
  - exists db1, db2, id. repeat split; try assumption. now rewrite Hget.
Defined.

End StoreRoundTrip.

(** ** What the store writes into a row *)

Module StoredFields.
Import TestCaseStore.

Lemma fromkeys_from_In x seen xs :
  In x (Text.fromkeys_from seen xs) <-> In x xs /\ ~ In x seen.
Proof.
  revert seen. induction xs as [|y ys IH]; intros seen; cbn.
  - tauto.
  - destruct (Text.mem y seen) eqn:E.
    + apply StoreRoundTrip.mem_In in E. rewrite IH. split.
      * intros [H1 H2]. tauto.
      * intros [[->|H1] H2]; [contradiction | tauto].
    + assert (Hn : ~ In y seen).
      { intros H. apply StoreRoundTrip.mem_In in H. congruence. }
      cbn. rewrite IH. cbn. split.
      * intros [->|[H1 H2]]; [tauto|]. split; [now right | tauto].
      * intros [[->|H1] H2]; [now left|].
        destruct (string_dec y x) as [->|Hne]; [now left|]. right. tauto.
Qed.

Lemma fromkeys_from_NoDup seen xs : NoDup (Text.fromkeys_from seen xs).
Proof.
  revert seen. induction xs as [|y ys IH]; intros seen; cbn; [constructor|].
  destruct (Text.mem y seen); [apply IH|].
  constructor; [|apply IH]. rewrite fromkeys_from_In. cbn. tauto.
Qed.

Lemma fromkeys_In x xs : In x (Text.fromkeys xs) <-> In x xs.
Proof. unfold Text.fromkeys. rewrite fromkeys_from_In. cbn. tauto. Qed.

Lemma fromkeys_NoDup xs : NoDup (Text.fromkeys xs).
Proof. apply fromkeys_from_NoDup. Qed.


Lemma search_P_digit_range s d :
  search_P_digit s = Some d -> (48 <= Text.code d /\ Text.code d <= 51)%N.
Proof.
  induction s as [|c s IH]; cbn; [discriminate|].
  destruct s as [|d' s']; [discriminate|].
  destruct ((Text.code c =? 80)%N && (48 <=? Text.code d')%N && (Text.code d' <=? 51)%N)
    eqn:E; [|exact IH].
  intros [= <-]. apply andb_prop in E. destruct E as [E E3].
  apply andb_prop in E. destruct E as [_ E2].
  apply N.leb_le in E2, E3. now split.
Qed.

Lemma P_digit_name d :
  (48 <= Text.code d /\ Text.code d <= 51)%N ->
  In (String "P" (String d EmptyString)) priority_names.
Proof.
  unfold Text.code, priority_names.
  destruct d as [[] [] [] [] [] [] [] []]; cbn; intros [H1 H2];
    try (exfalso; lia); tauto.
Qed.

Lemma extract_priority_from_string_name s :
  In (_extract_priority_from_string s) priority_names.
Proof.
  unfold _extract_priority_from_string.
  destruct (negb (Text.truthy s)); [cbn; tauto|].
  destruct (search_P_digit (Text.upper s)) as [d|] eqn:E.
  - apply P_digit_name. now apply search_P_digit_range in E.
  - repeat match goal with |- context [if ?b then _ else _] => destruct b end;
      cbn; tauto.
Qed.

Lemma extract_priority_name tags_ : In (_extract_priority tags_) priority_names.
Proof.
  induction tags_ as [|tag rest IH]; cbn [_extract_priority]; [cbn; tauto|].
  destruct (Text.mem (Text.upper tag) priority_names) eqn:E; [|exact IH].
  now apply StoreRoundTrip.mem_In in E.
Qed.

Lemma name_starts_with_P p : In p priority_names -> Text.startswith p "P" = true.
Proof. cbn. intros [<-|[<-|[<-|[<-|[]]]]]; reflexivity. Qed.

(** X4. The priority written always starts with [P].  A given priority
    that starts with [P] is written as it is, whatever follows the [P];
    in every other case (no priority, an empty one, or one that does not
    start with [P]) the priority written is one of P0, P1, P2, P3. *)
Theorem stored_priority_shape test_case :
  Text.startswith (normalize_priority test_case) "P" = true /\
  (forall given,
      tc_priority test_case = Some given -> Text.startswith given "P" = true ->
      normalize_priority test_case = given) /\
  (tc_priority test_case = None -> normalize_priority test_case = "P2") /\
  (forall given,
      tc_priority test_case = Some given -> Text.startswith given "P" = false ->
      In (normalize_priority test_case) priority_names).
Proof.
  split; [apply Store.normalize_priority_P|]. unfold normalize_priority.
  split; [|split].
  - intros given -> Hp. cbn [get]. rewrite Hp.
    rewrite andb_false_r. rewrite Hp.
    destruct given; [discriminate Hp | reflexivity].
  - intros ->. reflexivity.
  - intros given -> Hp. cbn [get]. rewrite Hp. cbn [negb].
    destruct (Text.truthy given) eqn:Et; cbn [andb].
    + pose proof (extract_priority_from_string_name given) as Hin.
      pose proof (name_starts_with_P Hin) as Hs. rewrite Hs.
      destruct (_extract_priority_from_string given) eqn:E; [discriminate Hs|].
      cbn [Text.truthy negb orb]. exact Hin.
    + rewrite Et. cbn [negb orb]. apply extract_priority_name.
Qed.

Lemma stored_priority_shape_witness :
  normalize_priority (prioritised (Some "P9 - later") []) = "P9 - later" /\
  normalize_priority (prioritised None ["p1"]) = "P2" /\
  In (normalize_priority (prioritised (Some "") ["smoke"; "p1"])) priority_names /\
  In (normalize_priority (prioritised (Some "2 - p1") [])) priority_names.
Proof.
  split; [|split; [|split]].
  - apply (proj1 (proj2 (stored_priority_shape (prioritised (Some "P9 - later") [])))
             "P9 - later"); reflexivity.
  - apply (proj1 (proj2 (proj2 (stored_priority_shape (prioritised None ["p1"]))))).
    reflexivity.
  - apply (proj2 (proj2 (proj2 (stored_priority_shape
                                  (prioritised (Some "") ["smoke"; "p1"])))) "");
      reflexivity.
  - apply (proj2 (proj2 (proj2 (stored_priority_shape
                                  (prioritised (Some "2 - p1") [])))) "2 - p1");
      reflexivity.
Defined.

End StoredFields.

(** ** Updating vectors *)

Module VectorUpdate.
Import TestCaseStore.

Lemma update_vector_eq now db id vec :
  update_vector now db id vec
  = map (fun r => if String.eqb (row_id r) id then with_vector now vec r else r) db.
Proof. reflexivity. Qed.

Lemma update_vector_ids now db id vec : ids (update_vector now db id vec) = ids db.
Proof.
  rewrite update_vector_eq. unfold ids. rewrite map_map. apply map_ext.
  intros r. now destruct (String.eqb (row_id r) id).
Qed.

Lemma find_update now db id vec other :
  get_test_case (update_vector now db id vec) other
  = option_map (fun r => if String.eqb (row_id r) id then with_vector now vec r else r)
               (get_test_case db other).
Proof.
  rewrite update_vector_eq. unfold get_test_case.
  induction db as [|r db IH]; [reflexivity|]. cbn [map find].
  replace (row_id (if String.eqb (row_id r) id then with_vector now vec r else r))
    with (row_id r) by now destruct (String.eqb (row_id r) id).
  destruct (String.eqb (row_id r) other); [reflexivity | exact IH].
Qed.

Lemma get_test_case_id db id r : get_test_case db id = Some r -> row_id r = id.
Proof.
  unfold get_test_case. intros H. apply find_some in H.
  now apply String.eqb_eq.
Qed.

(** X5. [update_vector] keeps the ids of the table and their order.  On an
    id that is not in the table it changes nothing; on an id that is, the
    row read back has the new vector and the new update time and every
    other column as before, and the rows of other ids are as before. *)
Theorem update_vector_effect now db id vec :
  ids (update_vector now db id vec) = ids db /\
  (~ In id (ids db) -> update_vector now db id vec = db) /\
  (forall r, get_test_case db id = Some r ->
             get_test_case (update_vector now db id vec) id
             = Some (with_vector now vec r)) /\
  (forall other, other <> id ->
                 get_test_case (update_vector now db id vec) other
                 = get_test_case db other).
Proof.
  split; [apply update_vector_ids|]. split; [|split].
  - intros Hn. rewrite update_vector_eq. rewrite <- (map_id db) at 2.
    apply map_ext_in. intros r Hr.
    destruct (String.eqb_spec (row_id r) id) as [E|_]; [|reflexivity].
    exfalso. apply Hn. unfold ids. rewrite <- E. now apply in_map.
  - intros r Hr. rewrite find_update, Hr. cbn.
    apply get_test_case_id in Hr. now rewrite Hr, String.eqb_refl.
  - intros other Hne. rewrite find_update.
    destruct (get_test_case db other) as [r|] eqn:E; [|reflexivity]. cbn.
    apply get_test_case_id in E.
    destruct (String.eqb_spec (row_id r) id); [congruence | reflexivity].
Qed.

Lemma update_vector_effect_witness :
  update_vector 9%nat two_documents "tc-missing" [1; 0]%Q = two_documents /\
  option_map row_vector
    (get_test_case (update_vector 9%nat two_documents "tc-login" [1; 0]%Q) "tc-login")
  = Some (Some [1; 0]%Q) /\
  get_test_case (update_vector 9%nat two_documents "tc-login" [1; 0]%Q) "tc-logout"
  = get_test_case two_documents "tc-logout".
Proof.
  destruct (update_vector_effect 9%nat two_documents "tc-missing" [1; 0]%Q)
    as (_ & Habsent & _).
  destruct (update_vector_effect 9%nat two_documents "tc-login" [1; 0]%Q)
    as (_ & _ & Hset & Hother).
  split; [|split].
  - apply Habsent. vm_compute. intros [H|[H|[]]]; discriminate H.
  - erewrite Hset; [reflexivity|]. vm_compute. reflexivity.
  - apply Hother. discriminate.
Defined.

(** a key determines its row *)
Lemma get_of_member db r :
  key_unique db -> In r db -> get_test_case db (row_id r) = Some r.
Proof.
  unfold key_unique, get_test_case. induction db as [|r' db IH]; intros Hu Hin;
    [destruct Hin|].
  cbn in Hu. inversion Hu as [|? ? Hnot Hu']; subst. cbn.
  destruct Hin as [->|Hin]; [now rewrite String.eqb_refl|].
  destruct (String.eqb_spec (row_id r') (row_id r)) as [E|_]; [|now apply IH].
  exfalso. apply Hnot. rewrite E. unfold ids. now apply in_map.
Qed.

Section WithLibraries.

Variable md5_hexdigest : string -> string.
Variable ENGLISH_STOP_WORDS : list string.
Variable np_linalg_norm : list Q -> Q.
Variable SentenceTransformer : result EmbeddingModel.

(** X6. Storing a test case again without a vector erases the vector its
    row had: with a provider attached, every query whose keyword stage
    selects that document then raises, until its vector is written again. *)
Theorem restored_document_fails_rerank now db test_case db' id r model
    query_text top_k c :
  key_unique db ->
  store_test_case md5_hexdigest now db test_case None = Ok (db', id) ->
  store r = db' -> _embedding_model r = Some model ->
  In c (keyword_stage ENGLISH_STOP_WORDS r query_text) -> doc_id c = id ->
  exists e,
    outcome (HybridRetriever.query ENGLISH_STOP_WORDS np_linalg_norm
               SentenceTransformer r query_text top_k)
    = Raise (RuntimeError e).
Proof.
  intros Hu Hstore Hr Hmodel Hin Hid.
  assert (Hvec : vector c = None).
  { unfold store_test_case in Hstore.
    destruct (tc_title test_case) as [title|]; [|discriminate Hstore].
    injection Hstore as <- <-.
    pose proof (Store.get_inserted db (make_row md5_hexdigest now test_case None title))
      as Hget.
    pose proof (Store.key_unique_insert
                  (make_row md5_hexdigest now test_case None title) Hu) as Hu'.
    unfold keyword_stage in Hin. rewrite Hr in Hin.
    apply LiteralKeywords.search_selected in Hin.
    destruct Hin as (row & Hrow & -> & _). cbn in Hid.
    pose proof (@get_of_member _ _ Hu' Hrow) as Hrow'. rewrite Hid in Hrow'.
    change (get (_generate_id md5_hexdigest test_case) (tc_id test_case))
      with (row_id (make_row md5_hexdigest now test_case None title)) in Hrow'.
    rewrite Hget in Hrow'. injection Hrow' as <-. reflexivity. }
  unfold HybridRetriever.query. unfold keyword_stage in Hin.
  destruct (search_by_keywords _ _ _) as [|c0 cs]; [destruct Hin|].
  rewrite Hmodel, outcome_bind.
  destruct (@Query.rerank_raises np_linalg_norm SentenceTransformer r query_text
              (c0 :: cs) c Hin Hvec) as [e He].
  exists e. now rewrite He.
Qed.

End WithLibraries.

Lemma restored_document_fails_rerank_witness :
  exists e,
    outcome (HybridRetriever.query some_stop_words sum_norm (Raise ImportError)
               restored_retriever "login" 10%Z)
    = Raise (RuntimeError e).
Proof.
  eapply (@restored_document_fails_rerank no_digest some_stop_words sum_norm
            (Raise ImportError) 9%nat both_vectored login_case
            (store restored_retriever) "tc-login" restored_retriever constant_model
            "login" 10%Z).
  - unfold key_unique. vm_compute.
    constructor; [intros [H|[]]; discriminate H|].
    constructor; [intros []|constructor].
  - vm_compute. reflexivity.
  - reflexivity.
  - reflexivity.
  - vm_compute. left. reflexivity.
  - reflexivity.
Defined.

End VectorUpdate.

(** ** The order of listings and searches *)

Module StoreOrder.
Import TestCaseStore.

Lemma ascii_compare_refl a : Ascii.compare a a = Eq.
Proof. unfold Ascii.compare. apply N.compare_refl. Qed.

Lemma ascii_compare_lt_trans a b c :
  Ascii.compare a b = Lt -> Ascii.compare b c = Lt -> Ascii.compare a c = Lt.
Proof.
  unfold Ascii.compare. rewrite !N.compare_lt_iff. apply N.lt_trans.
Qed.

Lemma compare_lt_trans s1 s2 s3 :
  String.compare s1 s2 = Lt -> String.compare s2 s3 = Lt -> String.compare s1 s3 = Lt.
Proof.
  revert s2 s3. induction s1 as [|a s1 IH]; intros [|b s2] [|c s3]; cbn;
    try discriminate; try reflexivity.
  destruct (Ascii.compare a b) eqn:Eab; destruct (Ascii.compare b c) eqn:Ebc;
    try discriminate; intros H1 H2.
  - apply Ascii.compare_eq_iff in Eab, Ebc. subst.
    rewrite ascii_compare_refl. now apply IH with (s2 := s2).
  - apply Ascii.compare_eq_iff in Eab. subst. now rewrite Ebc.
  - apply Ascii.compare_eq_iff in Ebc. subst. now rewrite Eab.
  - now rewrite (ascii_compare_lt_trans _ _ _ Eab Ebc).
Qed.

Lemma compare_gt_lt s1 s2 : String.compare s1 s2 = Gt -> String.compare s2 s1 = Lt.
Proof. rewrite String.compare_antisym. now destruct (String.compare s2 s1). Qed.

Lemma compare_lt_gt s1 s2 : String.compare s1 s2 = Lt -> String.compare s2 s1 = Gt.
Proof. rewrite String.compare_antisym. now destruct (String.compare s2 s1). Qed.

Lemma compare_refl s : String.compare s s = Eq.
Proof.
  induction s as [|a s IH]; [reflexivity|]. cbn. now rewrite ascii_compare_refl.
Qed.

(** a row that sorts strictly after another does not sort before it *)
Lemma row_after_asym r1 r2 : row_after r1 r2 = true -> row_le r2 r1.
Proof.
  unfold row_le, row_after, String.ltb.
  destruct (String.compare (row_priority r1) (row_priority r2)) eqn:Ep.
  - apply String.compare_eq_iff in Ep. rewrite Ep, compare_refl.
    destruct (String.compare (row_title r2) (row_title r1)) eqn:Et;
      try discriminate. intros _. now rewrite (compare_lt_gt _ _ Et).
  - discriminate.
  - intros _. now rewrite (compare_gt_lt _ _ Ep).
Qed.

Lemma row_le_trans r1 r2 r3 : row_le r1 r2 -> row_le r2 r3 -> row_le r1 r3.
Proof.
  unfold row_le, row_after, String.ltb.
  destruct (String.compare (row_priority r1) (row_priority r2)) eqn:E12;
    destruct (String.compare (row_priority r2) (row_priority r3)) eqn:E23;
    intros H1 H2; try discriminate.
  - apply String.compare_eq_iff in E12, E23. rewrite E12, E23, compare_refl.
    destruct (String.compare (row_title r2) (row_title r1)) eqn:T21;
      try discriminate;
      destruct (String.compare (row_title r3) (row_title r2)) eqn:T32;
      try discriminate.
    + apply String.compare_eq_iff in T21, T32. now rewrite T32, T21, compare_refl.
    + apply String.compare_eq_iff in T21. now rewrite <- T21, T32.
    + apply String.compare_eq_iff in T32. now rewrite T32, T21.
    + destruct (String.compare (row_title r3) (row_title r1)) eqn:T31;
        [reflexivity| |reflexivity].
      apply compare_gt_lt in T32.
      rewrite (compare_lt_trans _ _ _ T32 T31) in T21. discriminate.
  - apply String.compare_eq_iff in E12. now rewrite E12, E23.
  - apply String.compare_eq_iff in E23. now rewrite <- E23, E12.
  - now rewrite (compare_lt_trans _ _ _ E12 E23).
Qed.

Lemma insert_row_perm r rows : Permutation (insert_row r rows) (r :: rows).
Proof.
  induction rows as [|r' rows IH]; cbn; [reflexivity|].
  destruct (row_after r r'); [|reflexivity].
  rewrite IH. apply perm_swap.
Qed.

Lemma order_by_perm rows : Permutation (order_by_priority_title rows) rows.
Proof.
  induction rows as [|r rows IH]; cbn; [reflexivity|].
  rewrite insert_row_perm. now constructor.
Qed.

Lemma insert_row_sorted r rows :
  StronglySorted row_le rows -> StronglySorted row_le (insert_row r rows).
Proof.
  induction 1 as [|r' rows Hs IH Hr']; cbn.
  - constructor; constructor.
  - destruct (row_after r r') eqn:E.
    + constructor; [exact IH|].
      rewrite Forall_forall in *. intros x Hx.
      apply (Permutation_in _ (insert_row_perm r rows)) in Hx.
      destruct Hx as [<-|Hx]; [now apply row_after_asym | now apply Hr'].
    + constructor; [now constructor|].
      constructor; [exact E|].
      rewrite Forall_forall in *. intros x Hx.
      apply row_le_trans with (r2 := r'); [exact E | now apply Hr'].
Qed.

Lemma order_by_sorted rows : StronglySorted row_le (order_by_priority_title rows).
Proof.
  induction rows as [|r rows IH]; cbn; [constructor | now apply insert_row_sorted].
Qed.

(** X7. [get_all_test_cases] returns every row of the table exactly once,
    in ascending order of priority and then of title. *)
Theorem get_all_sorted_permutation db :
  Permutation (get_all_test_cases db) db /\
  StronglySorted row_le (get_all_test_cases db).
Proof. split; [apply order_by_perm | apply order_by_sorted]. Qed.

Lemma insert_row_filter p r rows :
  StronglySorted row_le rows ->
  filter p (insert_row r rows)
  = if p r then insert_row r (filter p rows) else filter p rows.
Proof.
  induction 1 as [|r' rows Hs IH Hr']; cbn [insert_row filter].
  - now destruct (p r).
  - destruct (row_after r r') eqn:E; cbn [filter].
    + rewrite IH. destruct (p r'), (p r); try reflexivity.
      cbn [insert_row]. now rewrite E.
    + destruct (p r) eqn:Ep; [|reflexivity].
      assert (Hhead : forall x, In x (r' :: rows) -> row_after r x = false).
      { intros x [<-|Hx]; [exact E|].
        rewrite Forall_forall in Hr'.
        apply (row_le_trans (r2 := r')); [exact E | now apply Hr']. }
      change (if p r' then r' :: filter p rows else filter p rows)
        with (filter p (r' :: rows)).
      destruct (filter p (r' :: rows)) as [|x xs] eqn:Ef; [reflexivity|].
      cbn [insert_row]. rewrite Hhead; [reflexivity|].
      assert (Hx : In x (filter p (r' :: rows))) by (rewrite Ef; now left).
      now apply filter_In in Hx.
Qed.

Lemma order_by_filter p rows :
  order_by_priority_title (filter p rows) = filter p (order_by_priority_title rows).
Proof.
  induction rows as [|r rows IH]; [reflexivity|].
  cbn [filter order_by_priority_title fold_right].
  fold (order_by_priority_title rows).
  rewrite insert_row_filter by apply order_by_sorted.
  destruct (p r); [|exact IH].
  cbn [order_by_priority_title fold_right]. fold (order_by_priority_title (filter p rows)).
  now rewrite IH.
Qed.

(** X8. A keyword search is the full listing cut down: for a non-empty
    keyword list it returns the rows of [get_all_test_cases] that satisfy
    the WHERE clause, in the listing's order, up to the limit. *)
Theorem search_is_filtered_listing db keywords limit :
  keywords <> [] ->
  search_by_keywords db keywords limit
  = map to_candidate
      (sql_limit limit (filter (where_clause keywords) (get_all_test_cases db))).
Proof.
  intros Hk. unfold search_by_keywords, get_all_test_cases.
  destruct keywords as [|kw kws]; [contradiction|].
  now rewrite order_by_filter.
Qed.

Lemma search_is_filtered_listing_witness :
  search_by_keywords tied_documents ["login"] 2
  = map to_candidate
      (sql_limit 2 (filter (where_clause ["login"]) (get_all_test_cases tied_documents))).
Proof. apply search_is_filtered_listing. discriminate. Defined.

Lemma StronglySorted_firstn {A : Type} (R : A -> A -> Prop) n (xs : list A) :
  StronglySorted R xs -> StronglySorted R (firstn n xs).
Proof.
  intros H. revert n. induction H as [|x xs Hs IH Hx]; intros [|n]; cbn;
    try constructor; [apply IH|].
  rewrite Forall_forall in *. intros y Hy. apply Hx. now apply In_firstn_In in Hy.
Qed.

Lemma StronglySorted_map_candidates rows :
  StronglySorted row_le rows -> StronglySorted candidate_le (map to_candidate rows).
Proof.
  induction 1 as [|r rows Hs IH Hr]; cbn; constructor; [exact IH|].
  rewrite Forall_forall in *. intros c Hc. apply in_map_iff in Hc.
  destruct Hc as (r' & <- & Hr'). specialize (Hr r' Hr').
  unfold row_le, row_after in Hr. unfold candidate_le. cbn.
  destruct (String.compare (row_priority r) (row_priority r'));
    [exact Hr | exact I | discriminate Hr].
Qed.

(** X9. The candidates a keyword search returns are in ascending order of
    priority and then of title: each sorts no later than all that follow. *)
Theorem search_results_sorted db keywords limit :
  StronglySorted candidate_le (search_by_keywords db keywords limit).
Proof.
  unfold search_by_keywords. destruct keywords as [|kw kws]; [constructor|].
  apply StronglySorted_map_candidates. unfold sql_limit.
  destruct (limit <? 0)%Z; [|apply StronglySorted_firstn]; apply order_by_sorted.
Qed.

End StoreOrder.

(** ** How many documents a search returns, and which it cannot miss *)

Module SearchReach.
Import TestCaseStore.

Lemma length_insert_row r rows : List.length (insert_row r rows) = S (List.length rows).
Proof. apply (Permutation_length (StoreOrder.insert_row_perm r rows)). Qed.

Lemma length_order_by rows :
  List.length (order_by_priority_title rows) = List.length rows.
Proof. apply (Permutation_length (StoreOrder.order_by_perm rows)). Qed.

Lemma search_respects_limit_parts db keywords limit :
  (List.length (search_by_keywords db keywords limit) <= List.length db)%nat /\
  ((0 <= limit)%Z ->
   (Z.of_nat (List.length (search_by_keywords db keywords limit)) <= limit)%Z).
Proof.
  unfold search_by_keywords, sql_limit.
  destruct keywords as [|kw kws]; [cbn; split; lia|].
  pose proof (filter_length_le (where_clause (kw :: kws)) db) as Hm.
  rewrite length_map. destruct (limit <? 0)%Z eqn:E.
  - apply Z.ltb_lt in E. rewrite length_order_by. split; lia.
  - apply Z.ltb_ge in E. rewrite length_firstn, length_order_by. split; lia.
Qed.

(** X10. A search returns no more candidates than the limit when the
    limit is not negative, and never more than the table has rows; a
    negative limit is no limit, and every row that satisfies the WHERE
    clause is returned. *)
Theorem search_respects_limit db keywords limit :
  (List.length (search_by_keywords db keywords limit) <= List.length db)%nat /\
  ((0 <= limit)%Z ->
   (Z.of_nat (List.length (search_by_keywords db keywords limit)) <= limit)%Z) /\
  ((limit < 0)%Z -> keywords <> [] ->
   List.length (search_by_keywords db keywords limit)
   = List.length (filter (where_clause keywords) db)).
Proof.
  unfold search_by_keywords, sql_limit.
  destruct keywords as [|kw kws].
  - cbn. repeat split; try lia. intros _ H. now elim H.
  - set (matching := filter (where_clause (kw :: kws)) db).
    assert (Hm : (List.length matching <= List.length db)%nat)
      by apply filter_length_le.
    rewrite length_map. destruct (limit <? 0)%Z eqn:E.
    + apply Z.ltb_lt in E. rewrite length_order_by. repeat split; try lia.
    + apply Z.ltb_ge in E. rewrite length_firstn, length_order_by.
      repeat split; try lia.
Qed.

Lemma search_respects_limit_witness :
  (Z.of_nat (List.length (search_by_keywords tied_documents ["login"] 2)) <= 2)%Z /\
  List.length (search_by_keywords tied_documents ["login"] (-1)) = 4%nat.
Proof.
  destruct (search_respects_limit tied_documents ["login"] 2) as (_ & Hcap & _).
  destruct (search_respects_limit tied_documents ["login"] (-1)) as (_ & _ & Hall).
  split; [apply Hcap; lia|].
  rewrite Hall; [vm_compute; reflexivity | lia | discriminate].
Defined.












End SearchReach.

(** ** Statistics and bulk ingest *)

Module StoreBulk.
Import TestCaseStore.

Lemma list_sum_map_add {A : Type} (f g : A -> nat) (xs : list A) :
  list_sum (map (fun x => f x + g x)%nat xs)
  = (list_sum (map f xs) + list_sum (map g xs))%nat.
Proof.
  unfold list_sum. induction xs as [|x xs IH]; cbn; [reflexivity | rewrite IH; lia].
Qed.

Lemma list_sum_cons x xs : list_sum (x :: xs) = (x + list_sum xs)%nat.
Proof. reflexivity. Qed.

Lemma sum_indicator q keys :
  NoDup keys ->
  list_sum (map (fun p => if String.eqb q p then 1 else 0)%nat keys)
  = if Text.mem q keys then 1%nat else 0%nat.
Proof.
  induction 1 as [|p keys Hnot _ IH]; [reflexivity|].
  cbn [map]. rewrite list_sum_cons, IH. cbn [Text.mem existsb].
  fold (Text.mem q keys).
  destruct (String.eqb_spec q p) as [->|_]; cbn; [|reflexivity].
  destruct (Text.mem p keys) eqn:E; [|reflexivity].
  apply StoreRoundTrip.mem_In in E. contradiction.
Qed.

Lemma sum_counts keys db :
  NoDup keys ->
  list_sum (map (fun p => count_priority p db) keys)
  = List.length (filter (fun r => Text.mem (row_priority r) keys) db).
Proof.
  intros Hk. induction db as [|r db IH]; cbn [count_priority filter].
  - clear Hk. induction keys as [|p keys IHk]; [reflexivity|].
    cbn [map]. now rewrite list_sum_cons, IHk.
  - rewrite list_sum_map_add, IH, sum_indicator by exact Hk.
    now destruct (Text.mem (row_priority r) keys).
Qed.

(** X12. The statistics agree with one another: the rows with a vector are
    no more than the total, the priorities of the distribution are
    pairwise different, each is counted with the number of rows that have
    it, and the counts add up to the total. *)
Theorem stats_consistent db :
  (stat_with_vectors (get_stats db) <= stat_total_test_cases (get_stats db))%nat /\
  NoDup (map fst (stat_priority_distribution (get_stats db))) /\
  (forall p n, In (p, n) (stat_priority_distribution (get_stats db)) ->
               n = count_priority p db /\ (1 <= n)%nat) /\
  list_sum (map snd (stat_priority_distribution (get_stats db)))
  = stat_total_test_cases (get_stats db).
Proof.
  cbn [get_stats stat_with_vectors stat_total_test_cases stat_priority_distribution].
  unfold with_vectors, total_test_cases, priority_distribution.
  split; [apply filter_length_le|]. rewrite !map_map. cbn [fst snd].
  rewrite map_id. split; [apply StoredFields.fromkeys_NoDup|]. split.
  - intros p n Hin. apply in_map_iff in Hin. destruct Hin as (p' & [= <- <-] & Hp).
    split; [reflexivity|].
    apply StoredFields.fromkeys_In, in_map_iff in Hp. destruct Hp as (r & <- & Hr).
    clear - Hr. induction db as [|r' db IH]; [destruct Hr|]. cbn.
    destruct Hr as [->|Hr]; [rewrite String.eqb_refl; lia|].
    specialize (IH Hr). lia.
  - rewrite sum_counts by apply StoredFields.fromkeys_NoDup.
    f_equal. rewrite <- (filter_true db) at 2.
    apply filter_ext_in. intros r Hr. apply StoreRoundTrip.mem_In.
    apply StoredFields.fromkeys_In. now apply in_map.
Qed.

Lemma stats_consistent_witness :
  In ("P1", 1%nat) (stat_priority_distribution (get_stats two_documents)) /\
  1%nat = count_priority "P1" two_documents.
Proof.
  assert (Hin : In ("P1"%string, 1%nat)
                  (stat_priority_distribution (get_stats two_documents)))
    by (vm_compute; now left).
  split; [exact Hin|].
  destruct (stats_consistent two_documents) as (_ & _ & Hcount & _).
  exact (proj1 (Hcount _ _ Hin)).
Defined.

Lemma insert_keeps_ids db r id : In id (ids db) -> In id (ids (insert_or_replace db r)).
Proof.
  intros Hin. rewrite Store.insert_or_replace_eq. unfold ids in *. rewrite map_app.
  apply in_or_app. destruct (string_dec id (row_id r)) as [->|Hne]; [right; now left|].
  left. apply in_map_iff in Hin. destruct Hin as (r' & <- & Hr').
  apply in_map, filter_In. split; [exact Hr'|]. unfold other_than.
  destruct (String.eqb_spec (row_id r') (row_id r)); [contradiction | reflexivity].
Qed.

Lemma length_insert_le db r :
  (List.length (insert_or_replace db r) <= S (List.length db))%nat.
Proof.
  rewrite Store.insert_or_replace_eq, last_length.
  pose proof (filter_length_le (other_than (row_id r)) db). lia.
Qed.

Section WithHash.

Variable md5_hexdigest : string -> string.
Variable clock : nat -> timestamp.

Lemma store_files_spec files : forall k db db' n,
  store_files md5_hexdigest clock k db files = (db', n) ->
  n = List.length (filter storable files) /\
  (List.length db' <= List.length db + n)%nat /\
  (key_unique db -> key_unique db') /\
  (priorities_normalized db -> priorities_normalized db') /\
  (forall id, In id (ids db) -> In id (ids db')).
Proof.
  induction files as [|[json_file loaded] rest IH]; intros k db db' n H.
  - cbn in H. injection H as <- <-. cbn. repeat split; auto; lia.
  - cbn [store_files] in H. cbn [filter]. unfold storable at 1. cbn [snd].
    destruct loaded as [test_case|e]; cbn [bind_result] in H.
    + unfold store_test_case in H. cbn [with_source_file tc_title] in H.
      destruct (tc_title test_case) as [title|].
      * destruct (store_files md5_hexdigest clock (S k) _ rest) as [db2 count] eqn:E.
        injection H as <- <-. apply IH in E.
        destruct E as (-> & Hlen & Hu & Hp & Hids). cbn [List.length].
        split; [reflexivity|]. split.
        { pose proof (length_insert_le db
                        (make_row md5_hexdigest (clock k)
                           (with_source_file json_file test_case) None title)). lia. }
        split; [intros Hk; apply Hu; now apply Store.key_unique_insert|].
        split.
        { intros Hn. apply Hp. apply Store.insert_or_replace_normalized; [exact Hn|].
          apply Store.normalize_priority_P. }
        intros id Hid. apply Hids. now apply insert_keeps_ids.
      * now apply IH in H.
    + now apply IH in H.
Qed.

(** X13. Bulk ingest is best effort per file: the number it reports is the
    number of files that load and have a title, whatever the other files
    are; the table grows by at most that number; no id that was in the
    table is lost; the id stays a key and the priorities stay normalised. *)
Theorem ingest_counts_storable_files db files db' n :
  store_test_cases_from_directory md5_hexdigest clock db files = (db', n) ->
  n = List.length (filter storable files) /\
  (total_test_cases db' <= total_test_cases db + n)%nat /\
  (key_unique db -> key_unique db') /\
  (priorities_normalized db -> priorities_normalized db') /\
  (forall id, In id (ids db) -> In id (ids db')).
Proof. unfold store_test_cases_from_directory. apply store_files_spec. Qed.

End WithHash.

Lemma ingest_counts_storable_files_witness :
  exists db',
    store_test_cases_from_directory no_digest unit_clock [] five_files = (db', 4%nat) /\
    total_test_cases db' = 4%nat /\
    4%nat = List.length (filter storable five_files).
Proof.
  eexists. split; [vm_compute; reflexivity|]. split; [reflexivity|].
  eapply (@ingest_counts_storable_files no_digest unit_clock [] five_files).
  vm_compute. reflexivity.
Defined.

End StoreBulk.

(** ** Scores *)

Module Scores.
Import HybridRetriever.
Local Open Scope Q_scope.

Lemma py_min_le_l a b : py_min a b <= a.
Proof.
  unfold py_min. destruct (Qle_bool a b) eqn:E; [apply Qle_refl|].
  apply Qlt_le_weak, Qnot_le_lt. intros H. apply Qle_bool_iff in H. congruence.
Qed.

Lemma py_min_le_r a b : py_min a b <= b.
Proof.
  unfold py_min. destruct (Qle_bool a b) eqn:E; [|apply Qle_refl].
  now apply Qle_bool_iff.
Qed.

Lemma py_min_nonneg a b : 0 <= a -> 0 <= b -> 0 <= py_min a b.
Proof. unfold py_min. now destruct (Qle_bool a b). Qed.

Lemma count_nonneg (n : nat) : 0 <= inject_Z (Z.of_nat n) * 0.1.
Proof.
  apply Qmult_le_0_compat; [|discriminate].
  unfold Qle. cbn. lia.
Qed.

(** X14. The keyword score always lies between 0 and 1, and it is 0 for a
    query text with no word in it. *)
Theorem keyword_score_range query_lower c :
  0 <= _calculate_keyword_score query_lower c /\
  _calculate_keyword_score query_lower c <= 1 /\
  (Text.split query_lower = [] -> _calculate_keyword_score query_lower c == 0).
Proof.
  unfold _calculate_keyword_score.
  set (words := Text.split query_lower).
  set (s1 := if existsb _ words then 0 + 0.5 else 0).
  set (m := py_min (inject_Z (Z.of_nat (count _ words)) * 0.1) 0.3).
  set (s3 := if existsb _ words then s1 + m + 0.2 else s1 + m).
  assert (H1 : 0 <= s1) by (unfold s1; destruct (existsb _ words); discriminate).
  assert (Hm : 0 <= m).
  { unfold m. apply py_min_nonneg; [apply count_nonneg | discriminate]. }
  assert (H3 : 0 <= s3).
  { unfold s3. clearbody s1 m. destruct (existsb _ words); lra. }
  split; [apply py_min_nonneg; [exact H3 | discriminate]|].
  split; [eapply Qle_trans; [apply py_min_le_r | discriminate]|].
  intros Hw. subst s3 m s1 words. rewrite Hw. reflexivity.
Qed.

Lemma keyword_score_range_witness :
  _calculate_keyword_score "   " (TestCaseStore.to_candidate
     (TestCaseStore.make_row no_digest 1%nat login_case None "Login flow")) == 0.
Proof.
  apply (proj2 (proj2 (keyword_score_range "   " _))). reflexivity.
Defined.

Section WithNorm.

Variable np_linalg_norm : list Q -> Q.

Lemma dot_comm v1 v2 : dot v1 v2 == dot v2 v1.
Proof.
  revert v2. induction v1 as [|a v1 IH]; intros [|b v2]; cbn; try reflexivity.
  rewrite IH. ring.
Qed.

(** X15. The cosine similarity does not depend on the order of its two
    vectors, and it is 0 for vectors of different lengths. *)
Theorem cosine_symmetric v1 v2 :
  _cosine_similarity np_linalg_norm v1 v2 == _cosine_similarity np_linalg_norm v2 v1 /\
  (List.length v1 <> List.length v2 ->
   _cosine_similarity np_linalg_norm v1 v2 == 0).
Proof.
  unfold _cosine_similarity. rewrite (Nat.eqb_sym (List.length v2)). split.
  - destruct (List.length v1 =? List.length v2)%nat; cbn [negb]; [|reflexivity].
    rewrite (orb_comm (Qeq_bool (np_linalg_norm v2) 0)).
    destruct (Qeq_bool (np_linalg_norm v1) 0 || Qeq_bool (np_linalg_norm v2) 0);
      [reflexivity|].
    rewrite (dot_comm v1 v2), (Qmult_comm (np_linalg_norm v1)). reflexivity.
  - intros Hne. apply Nat.eqb_neq in Hne. rewrite Hne. reflexivity.
Qed.

End WithNorm.

Lemma cosine_symmetric_witness :
  _cosine_similarity sum_norm [1; 2] [3] == 0.
Proof. apply (cosine_symmetric sum_norm [1; 2] [3]). discriminate. Defined.

End Scores.

(** ** Keywords and the size and cost of a query *)

Module QueryShape.
Import HybridRetriever.

Lemma trace_bind {A B : Type} (m : M A) (k : A -> M B) :
  trace (bind m k) =
  match outcome m with Ok a => trace m ++ trace (k a) | Raise _ => trace m end.
Proof. unfold bind. now destruct (outcome m). Qed.

Lemma trace_wrap_runtime {A : Type} (m : M A) : trace (wrap_runtime m) = trace m.
Proof. unfold wrap_runtime. now destruct (outcome m). Qed.

Lemma map_result_length {A B : Type} (f : A -> result B) xs ys :
  map_result f xs = Ok ys -> List.length ys = List.length xs.
Proof.
  intros H. apply map_result_ok in H.
  induction H; cbn; [reflexivity | now f_equal].
Qed.

Lemma length_slice_to {A : Type} (k : Z) (xs : list A) :
  (List.length (slice_to k xs) <= List.length xs)%nat /\
  ((0 <= k)%Z -> (Z.of_nat (List.length (slice_to k xs)) <= k)%Z).
Proof.
  unfold slice_to. destruct (k <? 0)%Z eqn:E; rewrite length_firstn.
  - apply Z.ltb_lt in E. split; lia.
  - split; lia.
Qed.

Lemma apply_ranking_length r query_text candidates ranked :
  _apply_ranking r query_text candidates = Ok ranked ->
  (List.length ranked <= List.length candidates)%nat.
Proof.
  unfold _apply_ranking. intros H.
  destruct (map_result _ candidates) as [scored|e] eqn:E; [|discriminate H].
  cbn in H. injection H as <-. apply map_result_length in E.
  pose proof (filter_length_le (above_threshold (config r)) (sorted_desc scored)).
  pose proof (Permutation_length (Ranking.sorted_desc_perm scored)). lia.
Qed.

Section WithLibraries.

Variable ENGLISH_STOP_WORDS : list string.
Variable np_linalg_norm : list Q -> Q.
Variable SentenceTransformer : result EmbeddingModel.

Local Abbreviation query :=
  (query ENGLISH_STOP_WORDS np_linalg_norm SentenceTransformer).

(** X16. The keywords of a text are pairwise different, and they are
    exactly the domain terms contained in the lower-cased text together
    with the words found in it that are longer than two characters and are
    not stop words. *)
Theorem extract_keywords_exact query_text :
  NoDup (_extract_keywords ENGLISH_STOP_WORDS query_text) /\
  forall keyword,
    In keyword (_extract_keywords ENGLISH_STOP_WORDS query_text) <->
    (In keyword domain_terms /\
     Text.contains (Text.lower query_text) keyword = true) \/
    (In keyword (Text.findall (Text.lower query_text)) /\
     general_keyword ENGLISH_STOP_WORDS keyword = true).
Proof.
  unfold _extract_keywords. split; [apply StoredFields.fromkeys_NoDup|].
  intros keyword. rewrite StoredFields.fromkeys_In, in_app_iff, in_flat_map, filter_In.
  unfold general_keyword. split.
  - intros [(term & Hterm & Hin)|H]; [left|now right].
    destruct (Text.contains (Text.lower query_text) term) eqn:E; [|destruct Hin].
    destruct Hin as [<-|[]]. now split.
  - intros [[Hterm Hc]|H]; [left|now right].
    exists keyword. split; [exact Hterm|]. rewrite Hc. now left.
Qed.

(** X17. A query that returns gives no more results than [top_k] when
    [top_k] is not negative, no more than [max_candidates] when that is
    not negative, and never more than the store has documents. *)
Theorem query_result_size r query_text top_k results :
  outcome (query r query_text top_k) = Ok results ->
  ((0 <= top_k)%Z -> (Z.of_nat (List.length results) <= top_k)%Z) /\
  ((0 <= max_candidates (config r))%Z ->
   (Z.of_nat (List.length results) <= max_candidates (config r))%Z) /\
  (List.length results <= TestCaseStore.total_test_cases (store r))%nat.
Proof.
  intros H.
  destruct (Totality.query_returns_ranking_prefix _ _ _ _ _ _ H)
    as [[_ ->]|(candidates & ranked & Hids & Hrank & ->)].
  - cbn. repeat split; lia.
  - apply apply_ranking_length in Hrank.
    assert (Hlen : List.length candidates
                   = List.length (keyword_stage ENGLISH_STOP_WORDS r query_text)).
    { rewrite <- (length_map doc_id candidates), Hids. apply length_map. }
    destruct (SearchReach.search_respects_limit_parts (store r)
                (_extract_keywords ENGLISH_STOP_WORDS query_text)
                (max_candidates (config r))) as [Hdb Hcap].
    fold (keyword_stage ENGLISH_STOP_WORDS r query_text) in Hdb, Hcap.
    destruct (length_slice_to top_k ranked) as [Hs Hk].
    unfold TestCaseStore.total_test_cases.
    split; [exact Hk|]. split; [|lia].
    intros Hm. specialize (Hcap Hm). lia.
Qed.

(** X18. [max_results] of the configuration plays no part in a query: the
    answer and the provider calls are the same whatever its value. *)
Theorem max_results_unused m r query_text top_k :
  query (with_max_results m r) query_text top_k = query r query_text top_k.
Proof.
  destruct r as [db cfg model]. destruct cfg as [kw sw pw mc mr th].
  destruct model as [model|]; reflexivity.
Qed.

(** X19. A query calls the embedding provider at most once, and only with
    the query text: never with the text of a document.  Without a provider
    attached it makes no call. *)
Theorem query_provider_calls r query_text top_k :
  (trace (query r query_text top_k) = [] \/
   trace (query r query_text top_k) = [Encoded query_text]) /\
  (_embedding_model r = None -> trace (query r query_text top_k) = []).
Proof.
  unfold HybridRetriever.query.
  destruct (TestCaseStore.search_by_keywords _ _ _) as [|c cs];
    [split; [now left | reflexivity]|].
  rewrite trace_bind.
  assert (Hrest : forall candidates,
             trace (ranked_results <- lift (_apply_ranking r query_text candidates) ;;
                    ret (slice_to top_k ranked_results)) = []).
  { intros candidates. rewrite trace_bind. cbn [lift outcome trace].
    now destruct (_apply_ranking r query_text candidates). }
  destruct (_embedding_model r) as [model|] eqn:Emodel.
  - assert (Hre : trace (_semantic_rerank np_linalg_norm SentenceTransformer r
                           query_text (c :: cs)) = [Encoded query_text]).
    { unfold _semantic_rerank. rewrite trace_wrap_runtime, trace_bind.
      assert (Hemb : trace (_get_embedding SentenceTransformer r query_text)
                     = [Encoded query_text]).
      { unfold _get_embedding, _load_embedding_model. rewrite Emodel.
        rewrite trace_bind. cbn [lift outcome trace]. rewrite Emodel.
        rewrite trace_bind. cbn [emit outcome trace].
        now rewrite trace_wrap_runtime. }
      rewrite Hemb. destruct (outcome _); [|reflexivity].
      cbn [lift trace]. reflexivity. }
    rewrite Hre. split; [|discriminate].
    right. destruct (outcome _); [|reflexivity]. now rewrite Hrest.
  - split; [left|intros _]; cbn [ret outcome trace]; now rewrite Hrest.
Qed.

End WithLibraries.

Lemma extract_keywords_example :
  _extract_keywords some_stop_words "The LOGIN page and the user-profile API"
  = ["api"; "login"; "user"; "profile"; "page"; "user-profile"].
Proof. vm_compute. reflexivity. Qed.

Lemma query_result_size_witness :
  exists results,
    outcome (HybridRetriever.query some_stop_words sum_norm (Raise ImportError)
               tied_retriever "login" 2) = Ok results /\
    (Z.of_nat (List.length results) <= 2)%Z.
Proof.
  eexists. split; [vm_compute; reflexivity|].
  eapply (@query_result_size some_stop_words sum_norm (Raise ImportError)
            tied_retriever "login" 2%Z); [vm_compute; reflexivity | lia].
Defined.

Lemma query_provider_calls_witness :
  trace (HybridRetriever.query some_stop_words sum_norm (Raise ImportError)
           tied_retriever "login" 2) = [].
Proof.
  apply (proj2 (query_provider_calls some_stop_words sum_norm (Raise ImportError)
                  tied_retriever "login" 2)).
  reflexivity.
Defined.

End QueryShape.

(** ** Generating embeddings *)

Module Embeddings.
Import HybridRetriever.
Import TestCaseStore.

Lemma In_skipn_In {A : Type} (n : nat) (xs : list A) (x : A) :
  In x (skipn n xs) -> In x xs.
Proof.
  revert xs. induction n as [|n IH]; intros [|y ys] H; cbn in H; try contradiction;
    [exact H|]. right. now apply IH.
Qed.

Lemma update_vector_keeps now db id vec row :
  In row db -> row_id row <> id -> In row (update_vector now db id vec).
Proof.
  intros Hin Hne. rewrite VectorUpdate.update_vector_eq. apply in_map_iff.
  exists row. split; [|exact Hin].
  destruct (String.eqb_spec (row_id row) id); [contradiction | reflexivity].
Qed.

Lemma update_vector_embeds now db id vec : id_embedded (update_vector now db id vec) id.
Proof.
  intros r Hr Hid. rewrite VectorUpdate.update_vector_eq in Hr.
  apply in_map_iff in Hr. destruct Hr as (r0 & <- & _).
  destruct (String.eqb (row_id r0) id) eqn:E; [cbn; discriminate|].
  apply String.eqb_neq in E. contradiction.
Qed.

Lemma update_vector_mono now db id vec j :
  id_embedded db j -> id_embedded (update_vector now db id vec) j.
Proof.
  intros H r Hr Hid. rewrite VectorUpdate.update_vector_eq in Hr.
  apply in_map_iff in Hr. destruct Hr as (r0 & <- & Hr0).
  destruct (String.eqb (row_id r0) id); [cbn; discriminate|]. now apply (H r0).
Qed.

Section WithProvider.

Variable clock : nat -> timestamp.
Variable SentenceTransformer : result EmbeddingModel.
Variable encode_texts : EmbeddingModel -> list string -> result (list (list Q)).

Local Abbreviation write_vectors := (write_vectors clock).
Local Abbreviation embed_batches := (embed_batches clock encode_texts).
Local Abbreviation generate_embeddings :=
  (generate_embeddings clock SentenceTransformer encode_texts).
Local Abbreviation one_batch := (batch_table clock encode_texts).

Lemma write_vectors_ids pairs : forall k db,
  ids (fst (write_vectors k db pairs)) = ids db.
Proof.
  induction pairs as [|[tc e] pairs IH]; intros k db; [reflexivity|].
  cbn [HybridRetriever.write_vectors]. rewrite IH. apply VectorUpdate.update_vector_ids.
Qed.

Lemma write_vectors_keeps pairs : forall k db row,
  In row db -> (forall p, In p pairs -> row_id (fst p) <> row_id row) ->
  In row (fst (write_vectors k db pairs)).
Proof.
  induction pairs as [|[tc e] pairs IH]; intros k db row Hin Hne; [exact Hin|].
  cbn [HybridRetriever.write_vectors]. apply IH.
  - apply update_vector_keeps; [exact Hin|].
    intros E. apply (Hne (tc, e)); [now left | now symmetry].
  - intros p Hp. apply Hne. now right.
Qed.

Lemma write_vectors_mono pairs : forall k db j,
  id_embedded db j -> id_embedded (fst (write_vectors k db pairs)) j.
Proof.
  induction pairs as [|[tc e] pairs IH]; intros k db j H; [exact H|].
  cbn [HybridRetriever.write_vectors]. apply IH. now apply update_vector_mono.
Qed.

Lemma write_vectors_embeds pairs : forall k db p,
  In p pairs -> id_embedded (fst (write_vectors k db pairs)) (row_id (fst p)).
Proof.
  induction pairs as [|[tc e] pairs IH]; intros k db p Hp; [destruct Hp|].
  cbn [HybridRetriever.write_vectors]. destruct Hp as [<-|Hp]; [|now apply IH].
  apply write_vectors_mono. apply update_vector_embeds.
Qed.

Lemma combine_covers {A B : Type} (xs : list A) (ys : list B) x :
  List.length ys = List.length xs -> In x xs -> exists y, In (x, y) (combine xs ys).
Proof.
  revert ys. induction xs as [|a xs IH]; intros [|b ys] Hlen Hin; cbn in *;
    try discriminate; try contradiction.
  destruct Hin as [->|Hin]; [exists b; now left|].
  destruct (IH ys) as [y Hy]; [lia | exact Hin|]. exists y. now right.
Qed.

Lemma embed_batches_step fuel model batch_size k db c cs :
  embed_batches (S fuel) model batch_size k db (c :: cs)
  = let batch := firstn batch_size (c :: cs) in
    let next := one_batch model k db batch in
    let rest :=
      embed_batches fuel model batch_size (snd next) (fst next)
        (skipn batch_size (c :: cs)) in
    (map Encoded (map row_text_blob batch) ++ fst rest, snd rest).
Proof.
  cbn [HybridRetriever.embed_batches]. unfold batch_table.
  destruct (encode_texts model _) as [embeddings|e].
  - destruct (write_vectors k db _) as [db' k']. cbn [fst snd].
    now destruct (embed_batches fuel model batch_size k' db' _).
  - cbn [fst snd]. now destruct (embed_batches fuel model batch_size k db _).
Qed.

Lemma batch_table_ids model k db batch :
  ids (fst (one_batch model k db batch)) = ids db.
Proof.
  unfold batch_table. destruct (encode_texts model _); [|reflexivity].
  apply write_vectors_ids.
Qed.

Lemma batch_table_keeps model k db batch row :
  In row db -> (forall tc, In tc batch -> row_id tc <> row_id row) ->
  In row (fst (one_batch model k db batch)).
Proof.
  intros Hin Hne. unfold batch_table.
  destruct (encode_texts model _) as [embeddings|e]; [|exact Hin].
  apply write_vectors_keeps; [exact Hin|].
  intros [tc e] Hp. apply Hne. now apply in_combine_l in Hp.
Qed.

Lemma batch_table_mono model k db batch j :
  id_embedded db j -> id_embedded (fst (one_batch model k db batch)) j.
Proof.
  intros H. unfold batch_table.
  destruct (encode_texts model _); [now apply write_vectors_mono | exact H].
Qed.

Lemma batch_table_embeds model k db batch tc :
  answers_every_batch encode_texts model -> In tc batch ->
  id_embedded (fst (one_batch model k db batch)) (row_id tc).
Proof.
  intros Hans Hin. unfold batch_table.
  destruct (Hans (map row_text_blob batch)) as (embeddings & -> & Hlen).
  rewrite length_map in Hlen.
  destruct (combine_covers batch embeddings tc Hlen Hin) as [e He].
  apply (write_vectors_embeds _ k db (tc, e) He).
Qed.

Lemma embed_batches_ids fuel model batch_size : forall k db cases,
  ids (snd (embed_batches fuel model batch_size k db cases)) = ids db.
Proof.
  induction fuel as [|fuel IH]; intros k db [|c cs]; try reflexivity.
  rewrite embed_batches_step. cbn [snd]. rewrite IH. apply batch_table_ids.
Qed.

Lemma embed_batches_keeps fuel model batch_size : forall k db cases row,
  In row db -> (forall tc, In tc cases -> row_id tc <> row_id row) ->
  In row (snd (embed_batches fuel model batch_size k db cases)).
Proof.
  induction fuel as [|fuel IH]; intros k db [|c cs] row Hin Hne; try exact Hin.
  rewrite embed_batches_step. cbn [snd]. apply IH.
  - apply batch_table_keeps; [exact Hin|].
    intros tc Htc. apply Hne. now apply In_firstn_In in Htc.
  - intros tc Htc. apply Hne. now apply In_skipn_In in Htc.
Qed.

Lemma embed_batches_mono fuel model batch_size : forall k db cases j,
  id_embedded db j ->
  id_embedded (snd (embed_batches fuel model batch_size k db cases)) j.
Proof.
  induction fuel as [|fuel IH]; intros k db [|c cs] j H; try exact H.
  rewrite embed_batches_step. cbn [snd]. apply IH. now apply batch_table_mono.
Qed.

Lemma embed_batches_embeds fuel model batch_size :
  answers_every_batch encode_texts model -> (1 <= batch_size)%nat ->
  forall k db cases tc,
    (List.length cases <= fuel)%nat -> In tc cases ->
    id_embedded (snd (embed_batches fuel model batch_size k db cases)) (row_id tc).
Proof.
  intros Hans Hsize. induction fuel as [|fuel IH]; intros k db [|c cs] tc Hlen Hin;
    try destruct Hin; try (cbn in Hlen; lia).
  - rewrite embed_batches_step. cbn [snd].
    assert (Hsplit : In c (firstn batch_size (c :: cs))).
    { destruct batch_size; [lia | now left]. }
    apply embed_batches_mono. subst tc. now apply batch_table_embeds.
  - rewrite embed_batches_step. cbn [snd].
    assert (Hcases : In tc (c :: cs)) by now right.
    rewrite <- (firstn_skipn batch_size (c :: cs)) in Hcases.
    apply in_app_or in Hcases. destruct Hcases as [Hb|Hr].
    + apply embed_batches_mono. now apply batch_table_embeds.
    + apply IH; [|exact Hr]. rewrite length_skipn. cbn [List.length] in *. lia.
Qed.

Lemma embed_batches_calls fuel model batch_size :
  (1 <= batch_size)%nat ->
  forall k db cases,
    (List.length cases <= fuel)%nat ->
    fst (embed_batches fuel model batch_size k db cases)
    = map Encoded (map row_text_blob cases).
Proof.
  intros Hsize. induction fuel as [|fuel IH]; intros k db [|c cs] Hlen;
    try reflexivity; try (cbn in Hlen; lia).
  rewrite embed_batches_step. cbn [fst]. rewrite IH.
  - rewrite <- map_app, <- map_app. now rewrite firstn_skipn.
  - rewrite length_skipn. cbn [List.length] in *. lia.
Qed.

Lemma bind_lift_ok {A B : Type} (a : A) (k : A -> M B) : bind (lift (Ok a)) k = k a.
Proof. unfold bind. cbn. now destruct (k a). Qed.

Lemma load_gives_model r r0 :
  _load_embedding_model SentenceTransformer r = Ok r0 ->
  store r0 = store r /\ config r0 = config r /\
  exists model, _embedding_model r0 = Some model.
Proof.
  unfold _load_embedding_model. destruct (_embedding_model r) as [model|] eqn:E.
  - intros [= <-]. eauto.
  - destruct SentenceTransformer as [model|e]; [|destruct e; discriminate].
    intros [= <-]. cbn. eauto.
Qed.

(** the cases still to do are the rows of the table without a vector *)
Lemma In_cases db tc :
  In tc (filter lacks_vector (get_all_test_cases db)) <->
  In tc db /\ row_vector tc = None.
Proof.
  rewrite filter_In. unfold get_all_test_cases, lacks_vector. split.
  - intros [Hin H]. split.
    + apply (Permutation_in _ (StoreOrder.order_by_perm db) Hin).
    + now destruct (row_vector tc).
  - intros [Hin H]. split.
    + apply (Permutation_in _ (Permutation_sym (StoreOrder.order_by_perm db)) Hin).
    + now rewrite H.
Qed.

Lemma no_cases db : Forall embedded db -> filter lacks_vector (get_all_test_cases db) = [].
Proof.
  intros H. destruct (filter lacks_vector (get_all_test_cases db)) as [|tc cs] eqn:E;
    [reflexivity|].
  assert (Hin : In tc (filter lacks_vector (get_all_test_cases db)))
    by (rewrite E; now left).
  apply In_cases in Hin. destruct Hin as [Hin Hnone].
  rewrite Forall_forall in H. now elim (H tc Hin).
Qed.

Lemma generate_after_load batch_size r r0 model :
  _load_embedding_model SentenceTransformer r = Ok r0 ->
  _embedding_model r0 = Some model ->
  generate_embeddings batch_size r
  = match filter lacks_vector (get_all_test_cases (store r0)) with
    | [] => ret r0
    | c :: cs =>
        if (batch_size =? 0)%Z
        then raise (ValueError "range() arg 3 must not be zero")
        else if (batch_size <? 0)%Z then ret r0
        else
          let (calls, db) :=
            embed_batches (List.length (c :: cs)) model (Z.to_nat batch_size) 0
              (store r0) (c :: cs) in
          {| trace := calls;
             outcome := Ok {| store := db; config := config r0;
                              _embedding_model := _embedding_model r0 |} |}
    end.
Proof.
  intros Hload Hmodel. unfold HybridRetriever.generate_embeddings.
  rewrite Hload, bind_lift_ok. cbv beta. rewrite Hmodel.
  now destruct (filter lacks_vector (get_all_test_cases (store r0))).
Qed.

Lemma generate_noop batch_size r r0 :
  Forall embedded (store r) ->
  _load_embedding_model SentenceTransformer r = Ok r0 ->
  generate_embeddings batch_size r = ret r0.
Proof.
  intros Hall Hload.
  destruct (load_gives_model _ Hload) as (Hs & _ & model & Hmodel).
  rewrite (generate_after_load batch_size _ Hload Hmodel).
  rewrite Hs, no_cases by exact Hall. reflexivity.
Qed.

(** X20. When every document has a vector, [generate_embeddings] calls the
    provider for nothing and leaves the store as it is, whatever the batch
    size; it only attaches the model. *)
Theorem generate_embeddings_nothing_to_do batch_size r r0 :
  Forall embedded (store r) ->
  _load_embedding_model SentenceTransformer r = Ok r0 ->
  generate_embeddings batch_size r = ret r0.
Proof. apply generate_noop. Qed.

(** the table and the provider calls of a run that reaches the batch loop *)
Lemma generate_runs_batches batch_size r r0 model c cs :
  _load_embedding_model SentenceTransformer r = Ok r0 ->
  _embedding_model r0 = Some model ->
  filter lacks_vector (get_all_test_cases (store r0)) = c :: cs ->
  (0 < batch_size)%Z ->
  generate_embeddings batch_size r
  = {| trace := fst (embed_batches (List.length (c :: cs)) model
                       (Z.to_nat batch_size) 0 (store r0) (c :: cs));
       outcome := Ok {| store := snd (embed_batches (List.length (c :: cs)) model
                                        (Z.to_nat batch_size) 0 (store r0) (c :: cs));
                        config := config r0;
                        _embedding_model := _embedding_model r0 |} |}.
Proof.
  intros Hload Hmodel Hcases Hsize.
  rewrite (generate_after_load batch_size _ Hload Hmodel), Hcases.
  destruct (batch_size =? 0)%Z eqn:E0; [apply Z.eqb_eq in E0; lia|].
  destruct (batch_size <? 0)%Z eqn:E1; [apply Z.ltb_lt in E1; lia|].
  now destruct (embed_batches _ model _ 0%nat (store r0) (c :: cs)).
Qed.

Lemma same_id_same_row db a b :
  key_unique db -> In a db -> In b db -> row_id a = row_id b -> a = b.
Proof.
  intros Hu Ha Hb E.
  pose proof (@VectorUpdate.get_of_member _ _ Hu Ha) as H1.
  pose proof (@VectorUpdate.get_of_member _ _ Hu Hb) as H2.
  rewrite E, H2 in H1. now injection H1.
Qed.

(** X21. A run of [generate_embeddings] that returns keeps the ids of the
    table, the configuration, and every row that already had a vector,
    column for column; the retriever it returns has a model attached. *)
Theorem generate_embeddings_keeps_embedded batch_size r r' :
  key_unique (store r) ->
  outcome (generate_embeddings batch_size r) = Ok r' ->
  ids (store r') = ids (store r) /\
  config r' = config r /\
  _embedding_model r' <> None /\
  (forall row, In row (store r) -> embedded row -> In row (store r')).
Proof.
  intros Hu H.
  destruct (_load_embedding_model SentenceTransformer r) as [r0|e] eqn:Hload.
  2: { unfold HybridRetriever.generate_embeddings in H. rewrite Hload in H.
       discriminate H. }
  destruct (load_gives_model _ Hload) as (Hs & Hc & model & Hmodel).
  rewrite (generate_after_load batch_size _ Hload Hmodel) in H.
  rewrite Hs, Hc, Hmodel in H.
  destruct (filter lacks_vector (get_all_test_cases (store r))) as [|c cs] eqn:Hcases.
  - cbn in H. injection H as <-. rewrite Hs, Hc, Hmodel.
    repeat split; auto; discriminate.
  - destruct (batch_size =? 0)%Z; [discriminate H|].
    destruct (batch_size <? 0)%Z.
    + cbn in H. injection H as <-. rewrite Hs, Hc, Hmodel.
      repeat split; auto; discriminate.
    + pose proof (embed_batches_ids (List.length (c :: cs)) model
                    (Z.to_nat batch_size) 0 (store r) (c :: cs)) as Hids.
      pose proof (embed_batches_keeps (List.length (c :: cs)) model
                    (Z.to_nat batch_size) 0 (store r) (c :: cs)) as Hkeep.
      destruct (embed_batches _ model _ 0%nat (store r) (c :: cs)) as [calls db].
      cbn in H. injection H as <-. cbn [store config _embedding_model fst snd] in *.
      split; [exact Hids|]. split; [reflexivity|]. split; [discriminate|].
      intros row Hrow Hemb. apply Hkeep; [exact Hrow|].
      intros tc Htc Eid. rewrite <- Hcases in Htc. apply In_cases in Htc.
      destruct Htc as [Htc Hnone].
      rewrite (@same_id_same_row _ _ _ Hu Htc Hrow Eid) in Hnone. now elim Hemb.
Qed.

(** X22. The texts [generate_embeddings] hands to the provider are text
    blobs of documents without a vector; with a positive batch size and a
    model that loads they are the text blobs of all of these, each handed
    over once, in the order of the listing. *)
Theorem generate_embeddings_calls batch_size r :
  (forall text, In (Encoded text) (trace (generate_embeddings batch_size r)) ->
                exists row, In row (store r) /\ row_vector row = None /\
                            row_text_blob row = text) /\
  (forall r0, _load_embedding_model SentenceTransformer r = Ok r0 ->
              (0 < batch_size)%Z ->
              trace (generate_embeddings batch_size r)
              = map Encoded (map row_text_blob
                               (filter lacks_vector (get_all_test_cases (store r))))).
Proof.
  assert (Hpos : forall r0, _load_embedding_model SentenceTransformer r = Ok r0 ->
              (0 < batch_size)%Z ->
              trace (generate_embeddings batch_size r)
              = map Encoded (map row_text_blob
                               (filter lacks_vector (get_all_test_cases (store r))))).
  { intros r0 Hload Hsize.
    destruct (load_gives_model _ Hload) as (Hs & _ & model & Hmodel).
    destruct (filter lacks_vector (get_all_test_cases (store r))) as [|c cs] eqn:Hcases.
    - now rewrite (generate_after_load batch_size _ Hload Hmodel), Hs, Hcases.
    - rewrite <- Hs in Hcases.
      rewrite (generate_runs_batches _ Hload Hmodel Hcases Hsize). cbn [trace].
      apply embed_batches_calls; lia. }
  split; [|exact Hpos].
  intros text Hin.
  destruct (_load_embedding_model SentenceTransformer r) as [r0|e] eqn:Hload.
  - destruct (Z.ltb_spec 0 batch_size) as [Hsize|Hsize].
    + rewrite (Hpos r0 eq_refl Hsize) in Hin.
      apply in_map_iff in Hin. destruct Hin as (t & [= ->] & Hin).
      apply in_map_iff in Hin. destruct Hin as (row & <- & Hrow).
      apply In_cases in Hrow. exists row. tauto.
    + exfalso. destruct (load_gives_model _ Hload) as (_ & _ & model & Hmodel).
      rewrite (generate_after_load batch_size _ Hload Hmodel) in Hin.
      destruct (filter lacks_vector (get_all_test_cases (store r0)));
        [cbn in Hin; contradiction|].
      destruct (batch_size =? 0)%Z eqn:E0; [cbn in Hin; contradiction|].
      destruct (batch_size <? 0)%Z eqn:E1; [cbn in Hin; contradiction|].
      apply Z.ltb_ge in E1. apply Z.eqb_neq in E0. lia.
  - exfalso. unfold HybridRetriever.generate_embeddings in Hin.
    rewrite Hload in Hin. cbn in Hin. contradiction.
Qed.

Lemma cases_empty db :
  filter lacks_vector (get_all_test_cases db) = [] -> Forall embedded db.
Proof.
  intros H. apply Forall_forall. intros row Hrow Hnone.
  assert (Hin : In row (filter lacks_vector (get_all_test_cases db)))
    by (apply In_cases; now split).
  rewrite H in Hin. destruct Hin.
Qed.

Lemma all_embedded_after model batch_size db :
  answers_every_batch encode_texts model -> (1 <= batch_size)%nat ->
  Forall embedded
    (snd (embed_batches (List.length (filter lacks_vector (get_all_test_cases db)))
            model batch_size 0 db (filter lacks_vector (get_all_test_cases db)))).
Proof.
  intros Hans Hsize. set (cases := filter lacks_vector (get_all_test_cases db)).
  apply Forall_forall. intros row Hrow.
  assert (Hid : id_embedded (snd (embed_batches (List.length cases) model batch_size
                                    0 db cases)) (row_id row)).
  { destruct (existsb (fun tc => String.eqb (row_id tc) (row_id row)) cases) eqn:E.
    - apply existsb_exists in E. destruct E as (tc & Htc & E).
      apply String.eqb_eq in E. rewrite <- E.
      now apply embed_batches_embeds.
    - apply embed_batches_mono. intros r1 Hr1 Hid1 Hnone.
      assert (Hin : In r1 cases) by (apply In_cases; now split).
      assert (Ht : existsb (fun tc => String.eqb (row_id tc) (row_id row)) cases = true).
      { apply existsb_exists. exists r1. split; [exact Hin|]. now apply String.eqb_eq. }
      congruence. }
  now apply (Hid row).
Qed.

(** X23. With a provider that answers every batch and a positive batch
    size, [generate_embeddings] returns and every document then has a
    vector; running it again, with any batch size, calls the provider for
    nothing and changes nothing. *)
Theorem generate_embeddings_completes batch_size again r r0 model :
  _load_embedding_model SentenceTransformer r = Ok r0 ->
  _embedding_model r0 = Some model ->
  answers_every_batch encode_texts model -> (0 < batch_size)%Z ->
  exists r',
    outcome (generate_embeddings batch_size r) = Ok r' /\
    Forall embedded (store r') /\
    generate_embeddings again r' = ret r'.
Proof.
  intros Hload Hmodel Hans Hsize.
  destruct (filter lacks_vector (get_all_test_cases (store r0))) as [|c cs] eqn:Hcases.
  - exists r0. rewrite (generate_after_load batch_size _ Hload Hmodel), Hcases.
    pose proof (cases_empty _ Hcases) as Hall.
    split; [reflexivity|]. split; [exact Hall|].
    apply generate_noop; [exact Hall|]. now apply Query.load_attached with (model := model).
  - rewrite (generate_runs_batches _ Hload Hmodel Hcases Hsize). cbn [outcome].
    eexists. split; [reflexivity|]. cbn [store].
    assert (Hall : Forall embedded
                     (snd (embed_batches (List.length (c :: cs)) model
                             (Z.to_nat batch_size) 0 (store r0) (c :: cs)))).
    { rewrite <- Hcases. apply all_embedded_after; [exact Hans | lia]. }
    split; [exact Hall|].
    apply generate_noop; [exact Hall|].
    apply Query.load_attached with (model := model). exact Hmodel.
Qed.

(** X24. [generate_embeddings] raises, without any provider call, when the
    model cannot be loaded.  With documents still to embed, a batch size
    of 0 raises [ValueError], and a negative batch size returns at once:
    no document is embedded and the provider is not called. *)
Theorem generate_embeddings_edge_cases r :
  (raises (_load_embedding_model SentenceTransformer r) ->
   forall batch_size,
     raises (outcome (generate_embeddings batch_size r)) /\
     trace (generate_embeddings batch_size r) = []) /\
  (forall r0,
      _load_embedding_model SentenceTransformer r = Ok r0 ->
      ~ Forall embedded (store r) ->
      outcome (generate_embeddings 0 r)
      = Raise (ValueError "range() arg 3 must not be zero")) /\
  (forall r0 batch_size,
      _load_embedding_model SentenceTransformer r = Ok r0 ->
      (batch_size < 0)%Z ->
      generate_embeddings batch_size r = ret r0).
Proof.
  split; [|split].
  - intros Hr batch_size. unfold HybridRetriever.generate_embeddings.
    destruct (_load_embedding_model SentenceTransformer r); [destruct Hr|].
    split; [exact I | reflexivity].
  - intros r0 Hload Hnot.
    destruct (load_gives_model _ Hload) as (Hs & _ & model & Hmodel).
    rewrite (generate_after_load 0 _ Hload Hmodel), Hs.
    destruct (filter lacks_vector (get_all_test_cases (store r))) eqn:Hcases;
      [|reflexivity].
    elim Hnot. now apply cases_empty.
  - intros r0 batch_size Hload Hneg.
    destruct (load_gives_model _ Hload) as (_ & _ & model & Hmodel).
    rewrite (generate_after_load batch_size _ Hload Hmodel).
    destruct (filter lacks_vector _); [reflexivity|].
    destruct (batch_size =? 0)%Z eqn:E0; [apply Z.eqb_eq in E0; lia|].
    destruct (batch_size <? 0)%Z eqn:E1; [reflexivity|].
    apply Z.ltb_ge in E1. lia.
Qed.


Lemma generate_load_fails batch_size r :
  raises (_load_embedding_model SentenceTransformer r) ->
  raises (outcome (generate_embeddings batch_size r)) /\
  trace (generate_embeddings batch_size r) = [].
Proof.
  intros Hr. unfold HybridRetriever.generate_embeddings.
  destruct (_load_embedding_model SentenceTransformer r); [destruct Hr|].
  split; [exact I | reflexivity].
Qed.

Lemma generate_ok_shape batch_size r r' :
  outcome (generate_embeddings batch_size r) = Ok r' ->
  exists r0,
    _load_embedding_model SentenceTransformer r = Ok r0 /\
    config r' = config r0 /\ _embedding_model r' = _embedding_model r0.
Proof.
  intros H.
  destruct (_load_embedding_model SentenceTransformer r) as [r0|e] eqn:Hload.
  2: { unfold HybridRetriever.generate_embeddings in H. rewrite Hload in H.
       discriminate H. }
  exists r0. split; [reflexivity|].
  destruct (load_gives_model _ Hload) as (_ & _ & model & Hmodel).
  rewrite (generate_after_load batch_size _ Hload Hmodel) in H.
  destruct (filter lacks_vector (get_all_test_cases (store r0))) as [|c cs].
  - cbn in H. injection H as <-. now split.
  - destruct (batch_size =? 0)%Z; [discriminate H|].
    destruct (batch_size <? 0)%Z; [cbn in H; injection H as <-; now split|].
    destruct (embed_batches _ model _ 0%nat (store r0) (c :: cs)) as [calls db].
    cbn in H. injection H as <-. now split.
Qed.





End WithProvider.

Lemma length_vectors_answers model : answers_every_batch length_vectors model.
Proof.
  intros texts. eexists. split; [reflexivity|]. apply length_map.
Qed.

Local Abbreviation run_generate :=
  (generate_embeddings unit_clock (Raise ImportError) length_vectors).

Lemma generate_embeddings_nothing_to_do_witness :
  run_generate 100 vectored_retriever = ret vectored_retriever.
Proof.
  apply generate_embeddings_nothing_to_do; [|reflexivity].
  vm_compute. repeat constructor; discriminate.
Defined.

Lemma generate_embeddings_keeps_embedded_witness :
  exists r',
    outcome (run_generate 100 half_vectored_retriever) = Ok r' /\
    ids (store r') = ids half_vectored /\
    (forall row, In row half_vectored -> embedded row -> In row (store r')).
Proof.
  destruct (outcome (run_generate 100 half_vectored_retriever)) as [r'|e] eqn:E;
    [|vm_compute in E; discriminate E].
  exists r'. split; [reflexivity|].
  assert (Hu : key_unique (store half_vectored_retriever)).
  { unfold key_unique. vm_compute.
    constructor; [intros [H|[]]; discriminate H|].
    constructor; [intros []|constructor]. }
  destruct (@generate_embeddings_keeps_embedded unit_clock (Raise ImportError)
              length_vectors 100%Z half_vectored_retriever r' Hu E)
    as (Hids & _ & _ & Hkeep).
  split; [exact Hids | exact Hkeep].
Defined.

Lemma generate_embeddings_calls_witness :
  trace (run_generate 1 half_vectored_retriever)
  = map Encoded (map row_text_blob
                   (filter lacks_vector (get_all_test_cases half_vectored))).
Proof.
  apply (proj2 (generate_embeddings_calls unit_clock (Raise ImportError)
                  length_vectors 1 half_vectored_retriever)
           half_vectored_retriever); [reflexivity | lia].
Defined.

Lemma generate_embeddings_completes_witness :
  exists r',
    outcome (run_generate 1 half_vectored_retriever) = Ok r' /\
    Forall embedded (store r') /\
    run_generate 0 r' = ret r'.
Proof.
  apply (@generate_embeddings_completes unit_clock (Raise ImportError) length_vectors
           1%Z 0%Z half_vectored_retriever half_vectored_retriever constant_model).
  - reflexivity.
  - reflexivity.
  - apply length_vectors_answers.
  - lia.
Defined.

Lemma generate_embeddings_edge_cases_witness :
  raises (outcome (run_generate 100 keyword_only_retriever)) /\
  outcome (run_generate 0 half_vectored_retriever)
  = Raise (ValueError "range() arg 3 must not be zero") /\
  run_generate (-5) half_vectored_retriever = ret half_vectored_retriever.
Proof.
  destruct (generate_embeddings_edge_cases unit_clock (Raise ImportError)
              length_vectors keyword_only_retriever) as (Hfail & _).
  destruct (generate_embeddings_edge_cases unit_clock (Raise ImportError)
              length_vectors half_vectored_retriever) as (_ & Hzero & Hneg).
  split; [|split].
  - apply Hfail. exact I.
  - apply (Hzero half_vectored_retriever); [reflexivity|].
    intros Hall. vm_compute in Hall. inversion Hall as [|? ? _ Hrest]; subst.
    inversion Hrest as [|? ? Hbad _]; subst. now apply Hbad.
  - apply Hneg; [reflexivity | lia].
Defined.

End Embeddings.

(** ** Building a retriever, dumping it, loading it again, and setup *)

Module Lifecycle.
Import TestCaseStore.
Import HybridRetriever.
Import Setup.




Section WithLibraries.

Variable ENGLISH_STOP_WORDS : list string.
Variable np_linalg_norm : list Q -> Q.
Variable md5_hexdigest : string -> string.
Variable clock : nat -> timestamp.
Variable SentenceTransformer : result EmbeddingModel.
Variable encode_texts : EmbeddingModel -> list string -> result (list (list Q)).

Local Abbreviation query :=
  (query ENGLISH_STOP_WORDS np_linalg_norm SentenceTransformer).
Local Abbreviation build := (from_test_case_dir md5_hexdigest clock).
Local Abbreviation load := (load_from_cache SentenceTransformer).
Local Abbreviation generate :=
  (generate_embeddings clock SentenceTransformer encode_texts).
Local Abbreviation setup :=
  (setup_database_retriever md5_hexdigest clock SentenceTransformer encode_texts).



Lemma build_shape disk files cfg r :
  build disk files cfg = Ok r ->
  _embedding_model r = None /\ config r = config_or_default cfg.
Proof.
  unfold HybridRetriever.from_test_case_dir.
  destruct (open_or_create disk) as [db|e]; cbn [bind_result]; [|discriminate].
  destruct (store_test_cases_from_directory md5_hexdigest clock db files) as [db' n].
  intros [= <-]. now split.
Qed.


Lemma load_never_raises disk cfg e : load disk cfg <> Raise e.
Proof.
  unfold HybridRetriever.load_from_cache. destruct (negb (db_exists disk)); [discriminate|].
  match goal with |- context [match ?a with Ok _ => _ | Raise _ => _ end] =>
    destruct a end; discriminate.
Qed.

Lemma load_none_without_provider disk cfg :
  raises SentenceTransformer -> load disk cfg = Ok None.
Proof.
  intros Hr. unfold HybridRetriever.load_from_cache.
  destruct (db_exists disk); [|reflexivity]. cbn [negb].
  destruct (open_store disk) as [db|e]; [|reflexivity]. cbn [bind_result].
  unfold _load_embedding_model.
  destruct SentenceTransformer as [m|e]; [destruct Hr|].
  destruct (cached_config disk) as [[c|e']|]; cbn; try reflexivity;
    destruct e; reflexivity.
Qed.

Lemma load_warm disk cfg db model :
  db_exists disk = true -> open_store disk = Ok db -> config_readable disk ->
  SentenceTransformer = Ok model ->
  load disk cfg
  = Ok (Some {| store := db;
                config := match cached_config disk with
                          | Some (Ok c) => c
                          | _ => config_or_default cfg
                          end;
                _embedding_model := Some model |}).
Proof.
  intros He Ho Hc Hm. unfold HybridRetriever.load_from_cache, config_readable in *.
  rewrite He, Ho. cbn [negb bind_result]. unfold _load_embedding_model. rewrite Hm.
  destruct (cached_config disk) as [[c|e']|]; [reflexivity | destruct Hc | reflexivity].
Qed.

Lemma load_some disk cfg r :
  load disk cfg = Ok (Some r) ->
  persisted r disk /\ config_readable disk /\
  exists model, SentenceTransformer = Ok model /\ _embedding_model r = Some model.
Proof.
  unfold HybridRetriever.load_from_cache, persisted, config_readable.
  destruct (db_exists disk); [|discriminate]. cbn [negb].
  destruct (open_store disk) as [db|e]; [|discriminate]. cbn [bind_result].
  unfold _load_embedding_model.
  destruct (cached_config disk) as [[c|e']|]; cbn; try discriminate;
    (destruct SentenceTransformer as [m|e]; [|destruct e; discriminate]);
    intros [= <-]; cbn; eauto 6.
Qed.

Lemma setup_cold db_config files disk :
  load disk (Some (retrieval_config_of db_config)) = Ok None ->
  setup db_config files disk
  = (retriever <- lift (build disk files (Some (retrieval_config_of db_config))) ;;
     retriever <- generate 100 retriever ;;
     ret (retriever, dump retriever (holding retriever disk))).
Proof.
  intros H. unfold Setup.setup_database_retriever. rewrite H.
  now rewrite Embeddings.bind_lift_ok.
Qed.

Lemma setup_warm db_config files disk r :
  load disk (Some (retrieval_config_of db_config)) = Ok (Some r) ->
  setup db_config files disk
  = ret ({| store := store r; config := retrieval_config_of db_config;
            _embedding_model := _embedding_model r |}, disk).
Proof.
  intros H. unfold Setup.setup_database_retriever. rewrite H.
  now rewrite Embeddings.bind_lift_ok.
Qed.

Lemma setup_ok_shape db_config files disk r disk' :
  outcome (setup db_config files disk) = Ok (r, disk') ->
  config r = retrieval_config_of db_config /\
  persisted r disk' /\ config_readable disk' /\
  exists model, SentenceTransformer = Ok model /\ _embedding_model r = Some model.
Proof.
  destruct (load disk (Some (retrieval_config_of db_config))) as [[r1|]|e] eqn:Hload.
  - rewrite (@setup_warm db_config files disk _ Hload). cbn. intros [= <- <-].
    apply load_some in Hload. destruct Hload as (Hp & Hc & model & Hm & Hr).
    cbn. repeat split; try exact Hc; try apply Hp. eauto.
  - rewrite (@setup_cold db_config files disk Hload).
    destruct (build disk files (Some (retrieval_config_of db_config)))
      as [r1|e] eqn:Hbuild; [|discriminate].
    rewrite Embeddings.bind_lift_ok, outcome_bind.
    destruct (outcome (generate 100 r1)) as [r2|e] eqn:Hgen; [|discriminate].
    cbn. intros [= <- <-].
    apply Embeddings.generate_ok_shape in Hgen. destruct Hgen as (r0 & Hl & Hc & Hm).
    apply build_shape in Hbuild. destruct Hbuild as [Hnone Hcfg].
    unfold _load_embedding_model in Hl. rewrite Hnone in Hl.
    destruct SentenceTransformer as [model|e]; [|destruct e; discriminate Hl].
    injection Hl as <-. cbn in Hc, Hm. rewrite Hc, Hm, Hcfg.
    unfold persisted, config_readable. cbn. repeat split. eauto.
  - now elim (@load_never_raises disk (Some (retrieval_config_of db_config)) e).
Qed.

(** X26. Loading what was dumped restores the retriever: on a cache
    directory that holds its database, [load_from_cache] after [dump]
    returns a retriever with the same store and the dumped configuration,
    with the provider attached; the configuration passed to
    [load_from_cache] is not used. *)
Theorem dump_then_load r disk cfg model :
  persisted r disk -> SentenceTransformer = Ok model ->
  load (dump r disk) cfg
  = Ok (Some {| store := store r; config := config r;
                _embedding_model := Some model |}).
Proof.
  intros [He Ho] Hm.
  rewrite (@load_warm (dump r disk) cfg (store r) model); try assumption; reflexivity.
Qed.

(** X27. Setup needs the provider: when it cannot be loaded,
    [setup_database_retriever] raises, whatever the cache directory and
    the files are, and no text is handed to the provider. *)
Theorem setup_requires_provider db_config files disk :
  raises SentenceTransformer ->
  raises (outcome (setup db_config files disk)) /\
  trace (setup db_config files disk) = [].
Proof.
  intros Hr.
  rewrite (@setup_cold db_config files disk (@load_none_without_provider disk _ Hr)).
  destruct (build disk files (Some (retrieval_config_of db_config)))
    as [r1|e] eqn:Hbuild; [|split; [exact I | reflexivity]].
  rewrite Embeddings.bind_lift_ok, outcome_bind, QueryShape.trace_bind.
  apply build_shape in Hbuild. destruct Hbuild as [Hnone _].
  assert (Hfail : raises (_load_embedding_model SentenceTransformer r1)).
  { unfold _load_embedding_model. rewrite Hnone.
    destruct SentenceTransformer as [m|e]; [destruct Hr | now destruct e]. }
  destruct (@Embeddings.generate_load_fails clock SentenceTransformer encode_texts
              100%Z r1 Hfail) as [Hout Htrace].
  destruct (outcome (generate 100 r1)); [destruct Hout|].
  split; [exact I | exact Htrace].
Qed.

(** X28. The retriever [setup_database_retriever] returns has the provider
    attached and uses the configuration built from the settings, also when
    the cache holds another dumped configuration; the cache directory
    afterwards holds its database. *)
Theorem setup_result db_config files disk r disk' :
  outcome (setup db_config files disk) = Ok (r, disk') ->
  config r = retrieval_config_of db_config /\
  _embedding_model r <> None /\
  persisted r disk'.
Proof.
  intros H. apply setup_ok_shape in H.
  destruct H as (Hc & Hp & _ & model & _ & Hm).
  split; [exact Hc|]. split; [|exact Hp]. rewrite Hm. discriminate.
Qed.



End WithLibraries.


Local Abbreviation example_query := (query some_stop_words sum_norm).
Local Abbreviation example_build := (from_test_case_dir no_digest unit_clock).
Local Abbreviation example_setup :=
  (setup_database_retriever no_digest unit_clock).


Lemma dump_then_load_witness :
  load_from_cache (Ok constant_model)
    (dump keyword_only_retriever (holding keyword_only_retriever fresh_disk)) None
  = Ok (Some {| store := two_documents; config := keyword_only_config;
                _embedding_model := Some constant_model |}).
Proof.
  apply (@dump_then_load (Ok constant_model) keyword_only_retriever
           (holding keyword_only_retriever fresh_disk) None constant_model).
  - split; reflexivity.
  - reflexivity.
Defined.

Lemma setup_requires_provider_witness :
  raises (outcome (example_setup (Raise ImportError) length_vectors
                     plain_settings five_files warm_cache)) /\
  trace (example_setup (Raise ImportError) length_vectors
           plain_settings five_files warm_cache) = [].
Proof.
  apply (@setup_requires_provider no_digest unit_clock (Raise ImportError)
           length_vectors plain_settings five_files warm_cache).
  exact I.
Defined.

Lemma setup_result_witness :
  exists r disk',
    outcome (example_setup (Ok constant_model) length_vectors
               plain_settings five_files fresh_disk) = Ok (r, disk') /\
    config r = retrieval_config_of plain_settings /\
    _embedding_model r <> None /\
    persisted r disk'.
Proof.
  destruct (outcome (example_setup (Ok constant_model) length_vectors
                       plain_settings five_files fresh_disk))
    as [[r disk']|e] eqn:E; [|vm_compute in E; discriminate E].
  exists r, disk'. split; [reflexivity|].
  exact (@setup_result no_digest unit_clock (Ok constant_model) length_vectors
           plain_settings five_files fresh_disk r disk' E).
Defined.



End Lifecycle.
